(** * oslo.vmware: session management, resilient API invocation and task polling

    A shallow embedding of [oslo_vmware/exceptions.py], the [RetryDecorator],
    [VMwareAPISession] of [oslo_vmware/api.py] and the request handler of
    [oslo_vmware/service.py].  Python exceptions are an inductive type, the
    session object and the remote server are threaded through an explicit
    state-and-exception monad, and loops that may run forever carry fuel. *)

From Stdlib Require Import String Ascii List Bool Arith ZArith Lia.
Import ListNotations.
Open Scope string_scope.
#[export] Set Warnings "-register-all".

(** The newline character. *)
Definition nl : string := String (ascii_of_nat 10) EmptyString.

(** ** Strings and dicts as Python has them *)

(** [s.endswith(suffix)] *)
Definition ends_with (suffix s : string) : bool :=
  let n := String.length s in
  let m := String.length suffix in
  Nat.leb m n && String.eqb (substring (n - m) m s) suffix.

(** [s[-5:]] *)
Definition last5 (s : string) : string :=
  let n := String.length s in
  if Nat.leb 5 n then substring (n - 5) 5 s else s.

(** A Python dict of strings, kept in insertion order. *)
Definition dict := list (string * string).

(** [d[k] = v]: replaces the value in place, or appends a new key. *)
Fixpoint dict_set (d : dict) (k v : string) : dict :=
  match d with
  | [] => [(k, v)]
  | (k', v') :: d' => if String.eqb k k' then (k, v) :: d' else (k', v') :: dict_set d' k v
  end.

(** [str(list_of_strings)], e.g. ['A', 'B'] *)
Definition py_str_list (l : list string) : string :=
  "[" ++ String.concat ", " (map (fun s => "'" ++ s ++ "'") l) ++ "]".

(** ['{%s}' % ', '.join(["'%s': '%s'" % (k, v) ...])] *)
Definition py_str_details (d : dict) : string :=
  "{" ++ String.concat ", " (map (fun '(k, v) => "'" ++ k ++ "': '" ++ v ++ "'") d) ++ "}".

(** Python truthiness of an optional string attribute ([None] or [''] is false). *)
Definition truthy (o : option string) : bool :=
  match o with
  | Some s => negb (String.eqb s "")
  | None => false
  end.

(** ** oslo_vmware/exceptions.py *)
Module Exceptions.

Definition ALREADY_EXISTS := "AlreadyExists".
Definition CANNOT_DELETE_FILE := "CannotDeleteFile".
Definition DUPLICATE_NAME := "DuplicateName".
Definition FILE_ALREADY_EXISTS := "FileAlreadyExists".
Definition FILE_FAULT := "FileFault".
Definition FILE_LOCKED := "FileLocked".
Definition FILE_NOT_FOUND := "FileNotFound".
Definition INVALID_POWER_STATE := "InvalidPowerState".
Definition INVALID_PROPERTY := "InvalidProperty".
Definition NO_DISK_SPACE := "NoDiskSpace".
Definition NO_PERMISSION := "NoPermission".
Definition NOT_AUTHENTICATED := "NotAuthenticated".
Definition SECURITY_ERROR := "SecurityError".
Definition MANAGED_OBJECT_NOT_FOUND := "ManagedObjectNotFound".
Definition TASK_IN_PROGRESS := "TaskInProgress".
Definition TOOLS_UNAVAILABLE := "ToolsUnavailable".

(** The fault-name constants the module defines, in source order. *)
Definition fault_name_constants : list string :=
  [ALREADY_EXISTS; CANNOT_DELETE_FILE; DUPLICATE_NAME; FILE_ALREADY_EXISTS;
   FILE_FAULT; FILE_LOCKED; FILE_NOT_FOUND; INVALID_POWER_STATE;
   INVALID_PROPERTY; NO_DISK_SPACE; NO_PERMISSION; NOT_AUTHENTICATED;
   SECURITY_ERROR; MANAGED_OBJECT_NOT_FOUND; TASK_IN_PROGRESS;
   TOOLS_UNAVAILABLE].

(** The subclasses of [VimException] that have a registry entry. *)
Inductive fault_class : Type :=
| AlreadyExistsException
| CannotDeleteFileException
| FileAlreadyExistsException
| FileFaultException
| FileLockedException
| FileNotFoundException
| InvalidPowerStateException
| InvalidPropertyException
| NoPermissionException
| NotAuthenticatedException
| TaskInProgress
| DuplicateName
| NoDiskSpaceException
| ToolsUnavailableException
| ManagedObjectNotFoundException.

Definition fault_class_eq_dec (a b : fault_class) : {a = b} + {a <> b}.
Proof. decide equality. Defined.

(** The class attribute [msg_fmt]. *)
Definition msg_fmt (c : fault_class) : string :=
  match c with
  | AlreadyExistsException => "Resource already exists."
  | CannotDeleteFileException => "Cannot delete file."
  | FileAlreadyExistsException => "File already exists."
  | FileFaultException => "File fault."
  | FileLockedException => "File locked."
  | FileNotFoundException => "File not found."
  | InvalidPowerStateException => "Invalid power state."
  | InvalidPropertyException => "Invalid property."
  | NoPermissionException => "No Permission."
  | NotAuthenticatedException => "Not Authenticated."
  | TaskInProgress => "Entity has another operation in process."
  | DuplicateName => "Duplicate name."
  | NoDiskSpaceException => "Insufficient disk space."
  | ToolsUnavailableException => "VMware Tools is not running."
  | ManagedObjectNotFoundException => "Managed object not found."
  end.

(** [VMwareDriverException.msg_fmt] *)
Definition default_msg_fmt := "An unknown exception occurred.".

(** Python exceptions.  A message is stored as [__init__] leaves it: an empty
    or missing message has been replaced by the class's [msg_fmt]. *)
Inductive exn : Type :=
| VimFaultException (fault_list : list string) (message : string)
    (cause : option exn) (details : option dict)
| VimException (message : string) (cause : option exn)
| FaultClassException (cls : fault_class) (message : string) (details : option dict)
| VimSessionOverLoadException (message : string) (cause : option exn)
| VimConnectionException (message : string) (cause : option exn)
| VimAttributeException (message : string) (cause : option exn)
(** an exception class not defined by this module (suds.WebFault,
    AttributeError, ...): its type name and [str()] *)
| PyException (type_name : string) (text : string).

(** [if not message: message = self.msg_fmt % kwargs] *)
Definition init_message (fmt : string) (message : option string) : string :=
  match message with
  | Some m => if String.eqb m "" then fmt else m
  | None => fmt
  end.

Definition mk_VimFaultException (fault_list : list string) (message : option string)
  (cause : option exn) (details : option dict) : exn :=
  VimFaultException fault_list (init_message default_msg_fmt message) cause details.

Definition mk_VimException (message : option string) (cause : option exn) : exn :=
  VimException (init_message default_msg_fmt message) cause.

(** [clazz(message, details=details)] for a registered class. *)
Definition mk_fault_class (c : fault_class) (message : option string)
  (details : option dict) : exn :=
  FaultClassException c (init_message (msg_fmt c) message) details.

Definition mk_VimConnectionException (message : string) (cause : option exn) : exn :=
  VimConnectionException (init_message default_msg_fmt (Some message)) cause.

(** [str(e)], i.e. [description] *)
Fixpoint description (e : exn) : string :=
  let with_cause (m : string) (c : option exn) :=
      match c with
      | Some c' => m ++ nl ++ "Cause: " ++ description c'
      | None => m
      end in
  match e with
  | VimFaultException fl m c d =>
      with_cause m c
      ++ (match fl with [] => "" | _ => nl ++ "Faults: " ++ py_str_list fl end)
      ++ (match d with
          | Some ((_ :: _) as d') => nl ++ "Details: " ++ py_str_details d'
          | _ => ""
          end)
  | VimException m c => with_cause m c
  | FaultClassException _ m _ => m
  | VimSessionOverLoadException m c => with_cause m c
  | VimConnectionException m c => with_cause m c
  | VimAttributeException m c => with_cause m c
  | PyException _ t => t
  end.

(** [isinstance(e, VimException)] *)
Definition is_vim_exception (e : exn) : bool :=
  match e with
  | VimFaultException _ _ _ _ | VimException _ _ | FaultClassException _ _ _ => true
  | _ => false
  end.

Definition _fault_classes_registry : list (string * fault_class) :=
  [(ALREADY_EXISTS, AlreadyExistsException);
   (CANNOT_DELETE_FILE, CannotDeleteFileException);
   (DUPLICATE_NAME, DuplicateName);
   (FILE_ALREADY_EXISTS, FileAlreadyExistsException);
   (FILE_FAULT, FileFaultException);
   (FILE_LOCKED, FileLockedException);
   (FILE_NOT_FOUND, FileNotFoundException);
   (INVALID_POWER_STATE, InvalidPowerStateException);
   (INVALID_PROPERTY, InvalidPropertyException);
   (MANAGED_OBJECT_NOT_FOUND, ManagedObjectNotFoundException);
   (NO_DISK_SPACE, NoDiskSpaceException);
   (NO_PERMISSION, NoPermissionException);
   (NOT_AUTHENTICATED, NotAuthenticatedException);
   (TASK_IN_PROGRESS, TaskInProgress);
   (TOOLS_UNAVAILABLE, ToolsUnavailableException)].

(** [dict.get(key)] *)
Fixpoint dict_get {V : Type} (d : list (string * V)) (k : string) : option V :=
  match d with
  | [] => None
  | (k', v) :: d' => if String.eqb k k' then Some v else dict_get d' k
  end.

Definition get_fault_class (name : string) : option fault_class :=
  dict_get _fault_classes_registry name.

(** A [vmodl.LocalizedMethodFault]; [None] for an attribute that is absent. *)
Record localized_method_fault := {
  localizedMessage : option string;
  (** [fault.__class__.__name__] *)
  fault_name : option string
}.

Definition attribute_error := PyException "AttributeError" "attribute not found".

Definition translate_fault (lmf : option localized_method_fault)
  (excep_msg : option string) : exn :=
  let msg_given := truthy excep_msg in
  match (if msg_given then Some excep_msg
         else match lmf with
              | Some f => option_map (fun m => Some m) (localizedMessage f)
              | None => None
              end) with
  | None => mk_VimException excep_msg (Some attribute_error)
  | Some msg =>
      match option_map fault_name lmf with
      | Some (Some name) =>
          match get_fault_class name with
          | Some c => mk_fault_class c msg None
          | None => mk_VimFaultException [name] msg None None
          end
      | _ => mk_VimException msg (Some attribute_error)
      end
  end.

End Exceptions.

Import Exceptions.

(** The result of running Python code: a value, a raised exception, or no
    result within the fuel given (a loop that has not stopped). *)
Inductive outcome (A : Type) : Type :=
| Ok (a : A)
| Raise (e : exn)
| Diverge.
Arguments Ok {A} a.
Arguments Raise {A} e.
Arguments Diverge {A}.

(** ** Looping calls

    [oslo_vmware.common.loopingcall] is imported by [api.py] but is not part of
    the sources at hand. *)
Module LoopingCall.

(** What the function driven by a [DynamicLoopingCall] does on one call:
    raise [LoopingCallDone(retvalue)], or return the seconds to idle. *)
Inductive func_step (A : Type) : Type :=
| LoopingCallDone (retvalue : A)
| Idle (seconds : nat).
Arguments LoopingCallDone {A} retvalue.
Arguments Idle {A} seconds.

Section Loops.
Context {St A : Type}.
(** the suspension of the current green thread for some seconds *)
Variable sleep : nat -> St -> St.

(** Modelled from the spec: [DynamicLoopingCall(f).start(periodic_interval_max)]
    followed by [wait()] (the Retry Engine, section 4.2 of the spec: invoke,
    catch, maybe sleep, maybe recurse).  [f] is called; [LoopingCallDone]
    stops the loop with its value, any other exception stops it and
    propagates, and a returned idle time is capped at
    [periodic_interval_max] and slept before the next call. *)
Fixpoint dynamic_looping_call (fuel : nat) (periodic_interval_max : nat)
  (f : St -> outcome (func_step A) * St) (st : St) : outcome A * St :=
  match fuel with
  | O => (Diverge, st)
  | S fuel' =>
      match f st with
      | (Ok (LoopingCallDone r), st1) => (Ok r, st1)
      | (Ok (Idle t), st1) =>
          dynamic_looping_call fuel' periodic_interval_max f
            (sleep (Nat.min t periodic_interval_max) st1)
      | (Raise e, st1) => (Raise e, st1)
      | (Diverge, st1) => (Diverge, st1)
      end
  end.

(** Modelled from the spec: [FixedIntervalLoopingCall(f).start(interval)]
    followed by [wait()] (the Async Operation Poller, section 4.5 of the
    spec: poll once, decide, wait the full interval).  [f] returns [Some r]
    where it raises [LoopingCallDone(r)] and [None] where it returns
    normally. *)
Fixpoint fixed_interval_looping_call (fuel : nat) (interval : nat)
  (f : St -> outcome (option A) * St) (st : St) : outcome A * St :=
  match fuel with
  | O => (Diverge, st)
  | S fuel' =>
      match f st with
      | (Ok (Some r), st1) => (Ok r, st1)
      | (Ok None, st1) => fixed_interval_looping_call fuel' interval f (sleep interval st1)
      | (Raise e, st1) => (Raise e, st1)
      | (Diverge, st1) => (Diverge, st1)
      end
  end.

End Loops.
End LoopingCall.

(** ** RetryDecorator (api.py) *)
Module Retry.
Import LoopingCall.

(** The arguments of [__init__]; [exceptions] is the tuple of exception
    classes, as a membership test. *)
Record retry_config := {
  max_retry_count : Z;
  inc_sleep_time : nat;
  max_sleep_time : nat;
  exceptions : exn -> bool
}.

(** The two attributes the decorator object mutates. *)
Record retry_state := {
  retry_count : nat;
  sleep_time : nat
}.

(** [self._retry_count = 0; self._sleep_time = 0] in [__init__] *)
Definition init_state : retry_state := {| retry_count := 0; sleep_time := 0 |}.

Section Decorator.
Context {W A : Type}.
Variable sleep : nat -> W -> W.
Variable c : retry_config.

(** [_func]: one call of the decorated function [f]; the decorator object's
    attributes are threaded with the caller's state. *)
Definition _func (f : W -> outcome A * W) (st : retry_state * W)
  : outcome (func_step A) * (retry_state * W) :=
  let '(s, w) := st in
  match f w with
  | (Ok result, w1) => (Ok (LoopingCallDone result), (s, w1))
  | (Raise e, w1) =>
      if exceptions c e then
        if negb (max_retry_count c =? -1)%Z
           && (Z.of_nat (retry_count s) >=? max_retry_count c)%Z
        then (Raise e, (s, w1))
        else
          let s' := {| retry_count := S (retry_count s);
                       sleep_time := sleep_time s + inc_sleep_time c |} in
          (Ok (Idle (sleep_time s')), (s', w1))
      else (Raise e, (s, w1))
  | (Diverge, w1) => (Diverge, (s, w1))
  end.

(** [func]: the decorated function.  The decorator's attributes [s] are
    passed in and handed back, as they live on the decorator object. *)
Definition func (fuel : nat) (f : W -> outcome A * W) (s : retry_state) (w : W)
  : outcome A * (retry_state * W) :=
  dynamic_looping_call (fun t '(s0, w0) => (s0, sleep t w0)) fuel
    (max_sleep_time c) (_func f) (s, w).

End Decorator.
End Retry.

(** ** The session object, the remote server and the monad *)

(** A managed object reference ([_type] and [value]). *)
Record moref := {
  moref_type : string;
  moref_value : string
}.

(** [vim_util.get_moref(value, type_)] *)
Definition get_moref (value type_ : string) : moref :=
  {| moref_type := type_; moref_value := value |}.

(** An element of the [missingSet] of a [RetrievePropertiesEx] object:
    the class name of its fault, and for [NoPermission] the fault's
    [object] and [privilegeId]. *)
Record missing_elem := {
  me_fault_name : string;
  me_object : string;
  me_privilegeId : string
}.

(** A task's [info] property. *)
Record task_info := {
  ti_state : string;
  ti_error : option localized_method_fault;
  (** identifies the payload *)
  ti_key : nat
}.

(** The Python values the remote calls return. *)
Inductive value : Type :=
| VNone
| VList (l : list value)
| VObject (key : nat)
| VTaskInfo (info : task_info)
(** a [RetrievePropertiesEx] result: the [missingSet] of each object *)
| VRetrieveResult (objects : list (list missing_elem)).

(** Python truthiness of a response. *)
Definition value_truthy (v : value) : bool :=
  match v with
  | VNone | VList [] => false
  | _ => true
  end.

(** The remote interactions, in the order they happen. *)
Inductive event : Type :=
| EvApiCall (module method : string)
| EvSoapRequest (attr_name : string) (mo : moref)
| EvSessionIsActive (session_id userName : option string)
| EvLogin (userName : string)
| EvSetPbmCookie
| EvSleep (seconds : nat).

(** The attributes of [VMwareAPISession] the claims are about. *)
Record session := {
  session_id : option string;
  session_username : option string;
  (** [self._pbm is not None] *)
  pbm_client : bool
}.

(** The state of the program: the session object, the attributes of the
    [RetryDecorator] object that decorates [_create_session] at class
    definition, and the remote interactions so far. *)
Record world := {
  w_session : session;
  w_create_session_retry : Retry.retry_state;
  w_trace : list event
}.

Definition M (A : Type) : Type := world -> outcome A * world.

Definition ret {A} (a : A) : M A := fun w => (Ok a, w).
Definition raise {A} (e : exn) : M A := fun w => (Raise e, w).
Definition bind {A B} (m : M A) (k : A -> M B) : M B :=
  fun w =>
    match m w with
    | (Ok a, w1) => k a w1
    | (Raise e, w1) => (Raise e, w1)
    | (Diverge, w1) => (Diverge, w1)
    end.
(** [try: m except: h] *)
Definition try_except {A} (m : M A) (h : exn -> M A) : M A :=
  fun w =>
    match m w with
    | (Raise e, w1) => h e w1
    | r => r
    end.

Notation "x <- m ;; k" := (bind m (fun x => k))
  (at level 61, m at next level, right associativity).
Notation "m ;; k" := (bind m (fun _ => k))
  (at level 61, right associativity).

Definition log_event (ev : event) (w : world) : world :=
  {| w_session := w_session w; w_create_session_retry := w_create_session_retry w;
     w_trace := app (w_trace w) [ev] |}.

Definition emit (ev : event) : M unit := fun w => (Ok tt, log_event ev w).

Definition get_session : M session := fun w => (Ok (w_session w), w).

Definition put_session (s : session) : M unit :=
  fun w => (Ok tt, {| w_session := s; w_create_session_retry := w_create_session_retry w;
                      w_trace := w_trace w |}).

(** [greenthread.sleep(seconds)] *)
Definition sleep_w (t : nat) (w : world) : world := log_event (EvSleep t) w.

(** A remote call: the server answers from the state before the call, and
    the call is recorded. *)
Definition rpc {A} (ev : event) (answer : world -> exn + A) : M A :=
  fun w => (match answer w with inl e => Raise e | inr a => Ok a end, log_event ev w).

(** ** The request handler of [Service.__getattr__] (service.py) *)
Module Service.

Definition dq : string := String (ascii_of_nat 34) EmptyString.
Definition ADDRESS_IN_USE_ERROR := "Address already in use".
Definition CONN_ABORT_ERROR := "Software caused connection abort".
Definition RESP_NOT_XML_ERROR :=
  "Response is " ++ dq ++ "text/html" ++ dq ++ ", not " ++ dq ++ "text/xml" ++ dq.

(** A child of the SOAP fault [detail]: its [type] attribute and the name and
    text of its own children. *)
Record fault_elem := {
  fe_type : string;
  fe_children : list (string * string)
}.

(** What [request(managed_object, ...)] raises, by the handler that
    catches it. *)
Inductive soap_error : Type :=
| WebFault (faultstring : option string) (detail : list fault_elem)
| AttributeError
(** [httplib.CannotSendRequest], [ResponseNotReady], [CannotSendHeader] *)
| HttplibError
| RequestException (text : string)
| OtherError (text : string).

Inductive soap_reply : Type :=
| SoapResponse (response : value)
| SoapRaises (err : soap_error).

(** [str.find(sub) != -1] *)
Definition contains (sub s : string) : bool :=
  match String.index 0 sub s with Some _ => true | None => false end.

(** The loop over [detail.getChildren()]: the fault list, with a type ending
    in [SecurityError] or [NotAuthenticated] replaced by [NotAuthenticated],
    and the details dict. *)
Definition normalize_fault_type (fault_type : string) : string :=
  if ends_with SECURITY_ERROR fault_type || ends_with NOT_AUTHENTICATED fault_type
  then NOT_AUTHENTICATED else fault_type.

Definition collect_faults (detail : list fault_elem) : list string * dict :=
  fold_left
    (fun '(fault_list, details) fault =>
       (app fault_list [normalize_fault_type (fe_type fault)],
        fold_left (fun d '(name, text) => dict_set d name text) (fe_children fault) details))
    detail ([], []).

(** The [suds.WebFault] being handled, as the cause. *)
Definition webfault_cause (faultstring : option string) : exn :=
  PyException "WebFault" (match faultstring with Some s => s | None => "" end).

(** The exception the handlers of [request_handler] raise for an error of
    the request. *)
Definition handle_soap_error (attr_name : string) (err : soap_error) : exn :=
  match err with
  | WebFault faultstring detail =>
      let '(fault_list, details) := collect_faults detail in
      mk_VimFaultException fault_list faultstring (Some (webfault_cause faultstring))
        (Some details)
  | AttributeError =>
      VimAttributeException ("No such SOAP method " ++ attr_name ++ ".")
        (Some (PyException "AttributeError" attr_name))
  | HttplibError =>
      VimSessionOverLoadException ("httplib error in " ++ attr_name ++ ".")
        (Some (PyException "HTTPException" ""))
  | RequestException t =>
      VimConnectionException ("requests error in " ++ attr_name ++ ".")
        (Some (PyException "RequestException" t))
  | OtherError t =>
      if contains ADDRESS_IN_USE_ERROR t || contains CONN_ABORT_ERROR t then
        VimSessionOverLoadException ("Socket error in " ++ attr_name ++ ".")
          (Some (PyException "Exception" t))
      else if contains RESP_NOT_XML_ERROR t then
        VimSessionOverLoadException ("Type error in " ++ attr_name ++ ".")
          (Some (PyException "Exception" t))
      else VimException ("Exception in " ++ attr_name ++ ".") (Some (PyException "Exception" t))
  end.

(** [_retrieve_properties_ex_fault_checker]: [None] where it returns, the
    error it raises otherwise ([inl] for [VimFaultException], [inr] for an
    error of the request itself, here the [AttributeError] of a response
    without [objects]). *)
Definition _retrieve_properties_ex_fault_checker (response : value)
  : option (exn + soap_error) :=
  let fault_string := "Error occurred while calling RetrievePropertiesEx." in
  if negb (value_truthy response) then
    Some (inl (mk_VimFaultException [NOT_AUTHENTICATED] (Some fault_string) None (Some [])))
  else
    match response with
    | VRetrieveResult objects =>
        let '(fault_list, details) :=
          fold_left
            (fun '(fl, d) missing_set =>
               fold_left
                 (fun '(fl', d') me =>
                    (app fl' [me_fault_name me],
                     if String.eqb (me_fault_name me) NO_PERMISSION
                     then dict_set (dict_set d' "object" (me_object me))
                            "privilegeId" (me_privilegeId me)
                     else d'))
                 missing_set (fl, d))
            objects ([], []) in
        match fault_list with
        | [] => None
        | _ => Some (inl (mk_VimFaultException fault_list (Some fault_string) None (Some details)))
        end
    | _ => Some (inr AttributeError)
    end.

Section Handler.
(** The server's reply to the SOAP request [attr_name] on a managed object. *)
Variable soap_server : world -> string -> moref -> soap_reply.

(** The managed-object argument: [None], a string, or a reference. *)
Inductive mo_arg : Type :=
| MONone
| MOStr (s : string)
| MORef (m : moref).

(** [request_handler(managed_object, ...)] for the method [attr_name];
    [lower_attr_name] is [attr_name.lower()]. *)
Definition request_handler (attr_name lower_attr_name : string) (managed_object : mo_arg)
  : M value :=
  let managed_object :=
    match managed_object with
    | MOStr s => Some (get_moref s s)
    | MORef m => Some m
    | MONone => None
    end in
  match managed_object with
  | None => ret VNone
  | Some mo =>
      fun w =>
        let w1 := log_event (EvSoapRequest attr_name mo) w in
        match soap_server w attr_name mo with
        | SoapResponse response =>
            if String.eqb lower_attr_name "retrievepropertiesex" then
              match _retrieve_properties_ex_fault_checker response with
              | None => (Ok response, w1)
              | Some (inl e) => (Raise e, w1)
              | Some (inr err) => (Raise (handle_soap_error attr_name err), w1)
              end
            else (Ok response, w1)
        | SoapRaises err => (Raise (handle_soap_error attr_name err), w1)
        end
  end.

End Handler.
End Service.

(** ** VMwareAPISession (api.py) *)
Module Api.
Import LoopingCall.

(** What [Login] returns. *)
Record user_session := {
  key : string;
  userName : string
}.

(** [_trunc_id(session_id)] as it is formatted into a message *)
Definition _trunc_id (sid : option string) : string :=
  match sid with Some s => last5 s | None => "None" end.

Definition is_connection_exception (e : exn) : bool :=
  match e with VimConnectionException _ _ => true | _ => false end.

Definition is_overload_or_connection_exception (e : exn) : bool :=
  match e with
  | VimSessionOverLoadException _ _ | VimConnectionException _ _ => true
  | _ => false
  end.

(** [@RetryDecorator(exceptions=(exceptions.VimConnectionException,))] *)
Definition create_session_retry : Retry.retry_config :=
  {| Retry.max_retry_count := -1; Retry.inc_sleep_time := 10;
     Retry.max_sleep_time := 60; Retry.exceptions := is_connection_exception |}.

Section Session.
(** The constructor's parameters. *)
Variable server_username : string.
Variable api_retry_count : Z.
Variable task_poll_interval : nat.
(** The server's answers, from the state before each call:
    [self.vim.SessionIsActive(...)], [self.vim.Login(...)] and
    [getattr(module, method)] applied to the arguments. *)
Variable srv_session_is_active : world -> exn + bool.
Variable srv_login : world -> exn + user_session.
Variable srv_api : string -> string -> world -> exn + value.

Definition is_current_session_active : M bool :=
  s <- get_session;;
  try_except
    (rpc (EvSessionIsActive (session_id s) (session_username s)) srv_session_is_active)
    (fun ex => if is_vim_exception ex then ret false else raise ex).

(** The body of [_create_session], run while holding the lock. *)
Definition _create_session_body : M unit :=
  s <- get_session;;
  active <- (if truthy (session_id s) then is_current_session_active else ret false);;
  if truthy (session_id s) && active then ret tt
  else
    session <- rpc (EvLogin server_username) srv_login;;
    s1 <- get_session;;
    put_session {| session_id := Some (key session);
                   session_username := Some (userName session);
                   pbm_client := pbm_client s1 |};;
    if pbm_client s1 then emit EvSetPbmCookie else ret tt.

(** [_create_session()]: the body under the class-level decorator, whose
    attributes are kept in the state. *)
Definition _create_session (fuel : nat) : M unit :=
  fun w =>
    let '(o, (s', w')) :=
      Retry.func sleep_w create_session_retry fuel _create_session_body
        (w_create_session_retry w) w in
    (o, {| w_session := w_session w'; w_create_session_retry := s';
           w_trace := w_trace w' |}).

(** The nested [_invoke_api] of [invoke_api]. *)
Definition _invoke_api (fuel : nat) (module method : string) : M value :=
  try_except (rpc (EvApiCall module method) (srv_api module method))
    (fun excep =>
       match excep with
       | VimFaultException fault_list _ _ details =>
           if existsb (String.eqb NOT_AUTHENTICATED) fault_list then
             active <- is_current_session_active;;
             if active then ret (VList [])
             else
               s <- get_session;;
               let excep_msg :=
                 "Current session: " ++ _trunc_id (session_id s)
                 ++ " is inactive; re-creating the session while invoking method "
                 ++ module ++ "." ++ method ++ "." in
               _create_session fuel;;
               raise (mk_VimConnectionException excep_msg (Some excep))
           else
             match fault_list with
             | fault :: _ =>
                 match get_fault_class fault with
                 | Some clazz => raise (mk_fault_class clazz (Some (description excep)) details)
                 | None => raise excep
                 end
             | [] => raise excep
             end
       | VimConnectionException _ _ =>
           active <- is_current_session_active;;
           (if negb active then _create_session fuel else ret tt);;
           raise excep
       | _ => raise excep
       end).

(** The decorator [invoke_api] builds on every call. *)
Definition invoke_api_retry : Retry.retry_config :=
  {| Retry.max_retry_count := api_retry_count; Retry.inc_sleep_time := 10;
     Retry.max_sleep_time := 60;
     Retry.exceptions := is_overload_or_connection_exception |}.

Definition invoke_api (fuel : nat) (module method : string) : M value :=
  fun w =>
    let '(o, (_, w')) :=
      Retry.func sleep_w invoke_api_retry fuel (_invoke_api fuel module method)
        Retry.init_state w in
    (o, w').

(** [state in ['queued', 'running']] *)
Definition task_state_pending (state : string) : bool :=
  existsb (String.eqb state) ["queued"; "running"].

(** The decision of [_poll_task] on the task info it has read. *)
Definition task_step (task_info : value) : M (option value) :=
  match task_info with
  | VTaskInfo ti =>
      if task_state_pending (ti_state ti) then ret None
      else if String.eqb (ti_state ti) "success" then ret (Some task_info)
      else raise (translate_fault (ti_error ti) None)
  | _ => raise attribute_error
  end.

Definition _poll_task (fuel : nat) : M (option value) :=
  task_info <- invoke_api fuel "vim_util" "get_object_property";;
  task_step task_info.

Definition wait_for_task (fuel : nat) : M value :=
  fixed_interval_looping_call sleep_w fuel task_poll_interval (_poll_task fuel).

End Session.
End Api.

(** ** Instruments for stating the claims *)

(** An operation together with the number of times it has been invoked, as
    the tests count the calls of a mock. *)
Definition counted {W A : Type} (f : W -> outcome A * W) (st : W * nat)
  : outcome A * (W * nat) :=
  let '(w, k) := st in
  let '(o, w') := f w in (o, (w', S k)).

(** The task reads of [wait_for_task] up to its last poll: each read returns a
    pending task info and is followed by the poll interval's sleep. *)
Inductive pending_polls (read : M value) (interval : nat)
  : world -> list task_info -> world -> Prop :=
| pending_polls_nil w : pending_polls read interval w [] w
| pending_polls_cons w w1 ti tis w2 :
    read w = (Ok (VTaskInfo ti), w1) ->
    Api.task_state_pending (ti_state ti) = true ->
    pending_polls read interval (sleep_w interval w1) tis w2 ->
    pending_polls read interval w (ti :: tis) w2.

(** ** Further code of the same modules and of the [vim_util] functions they call *)

(** [d[k] = v] for a dict of any value type: replaces in place, or appends. *)
Fixpoint pydict_set {V : Type} (d : list (string * V)) (k : string) (v : V)
  : list (string * V) :=
  match d with
  | [] => [(k, v)]
  | (k', v') :: d' => if String.eqb k k' then (k, v) :: d' else (k', v') :: pydict_set d' k v
  end.

(** [register_fault_class(name, exception)] (exceptions.py), for a registry
    whose classes are of type [C]; [is_vim_subclass] is
    [issubclass(exception, VimException)]. *)
Definition register_fault_class {C : Type} (is_vim_subclass : C -> bool)
  (registry : list (string * C)) (name : string) (exception : C)
  : exn + list (string * C) :=
  if negb (is_vim_subclass exception) then
    inl (PyException "TypeError" "exception should be a subclass of VimException")
  else inr (pydict_set registry name exception).

(** ** vim_util.py *)
Module VimUtil.

Definition colon : ascii := ascii_of_nat 58.

(** [c in s] for a character *)
Fixpoint has_char (c : ascii) (s : string) : bool :=
  match s with
  | EmptyString => false
  | String c' s' => Ascii.eqb c c' || has_char c s'
  end.

(** [s.split(sep)] for a one-character separator: every occurrence splits,
    empty fields are kept. *)
Fixpoint py_split (sep : ascii) (s : string) : list string :=
  match s with
  | EmptyString => [""]
  | String c s' =>
      let rest := py_split sep s' in
      if Ascii.eqb c sep then "" :: rest
      else match rest with
           | f :: r => String c f :: r
           | [] => [String c ""]
           end
  end.

(** The argument of [get_moref_value] and [get_moref_type]: a string or a
    managed object reference. *)
Inductive moref_arg : Type :=
| MOString (s : string)
| MOObject (m : moref).

Definition get_moref_value (m : moref_arg) : string :=
  match m with
  | MOString s => if has_char colon s then nth 1 (py_split colon s) "" else s
  | MOObject r => moref_value r
  end.

Definition get_moref_type (m : moref_arg) : option string :=
  match m with
  | MOString s => if has_char colon s then Some (nth 0 (py_split colon s) "") else None
  | MOObject r => Some (moref_type r)
  end.

(** [propset_dict(propset)]: [None] gives [{}], otherwise
    [{prop.name: prop.val for prop in propset}]. *)
Definition propset_dict {V : Type} (propset : option (list (string * V)))
  : list (string * V) :=
  match propset with
  | None => []
  | Some ps => fold_left (fun d '(name, val) => pydict_set d name val) ps []
  end.

(** The loop of [get_inventory_path] over the objects the retrieval yields,
    and what follows it.  An object is [None] without a [propSet], otherwise
    the [val] of each property of its [propSet]. *)
Definition get_inventory_path (objects : list (option (list string))) : string :=
  let '(entity_name, propSet, path) :=
    fold_left
      (fun '(entity_name, propSet, path) (obj : option (list string)) =>
         match obj with
         | None => (entity_name, propSet, path)
         | Some ps =>
             match ps with
             | v :: _ =>
                 if negb (truthy entity_name) then (Some v, Some ps, path)
                 else (entity_name, Some ps, v ++ "/" ++ path)
             | [] => (entity_name, Some ps, path)
             end
         end)
      objects (None, None, "") in
  let path :=
    match propSet with
    | Some (v :: _) =>
        substring (String.length v) (String.length path - String.length v) path
    | _ => path
    end in
  let entity_name := match entity_name with Some e => e | None => "" end in
  path ++ entity_name.

End VimUtil.

(** ** MemoryCache (service.py) *)
Module Cache.

(** [self._cache]: key to [(timeout, value)]. *)
Definition cache (V : Type) := list (string * (nat * V)).

Definition expired {V : Type} (now : nat) (entry : string * (nat * V)) : bool :=
  let '(_, (timeout, _)) := entry in
  negb (Nat.eqb timeout 0) && Nat.leb timeout now.

(** [get(key)] at the time [now]: expired entries are deleted first. *)
Definition get {V : Type} (now : nat) (key : string) (c : cache V) : option V * cache V :=
  let c' := filter (fun entry => negb (expired now entry)) c in
  (option_map snd (dict_get c' key), c').

(** [put(key, value, time)] at the time [now] (a [time] of seconds). *)
Definition put {V : Type} (now : nat) (key : string) (value : V) (time : nat) (c : cache V)
  : cache V :=
  let timeout := if Nat.eqb time 0 then 0 else now + time in
  pydict_set c key (timeout, value).

End Cache.

(** ** ServiceMessagePlugin (service.py) over suds's XML elements *)
Module Plugin.

(** A [suds.sax.element.Element]: name, text ([None] when unset),
    attributes and children. *)
Inductive element : Type :=
| Element (name : string) (text : option string) (attributes : dict)
    (children : list element).

Definition el_name (e : element) : string := match e with Element n _ _ _ => n end.
Definition el_attributes (e : element) : dict := match e with Element _ _ a _ => a end.
Definition el_text (e : element) : option string := match e with Element _ t _ _ => t end.
Definition el_children (e : element) : list element :=
  match e with Element _ _ _ ch => ch end.

Definition EMPTY_ELEMENTS : list string := ["VirtualMachineEmptyProfileSpec"].

(** suds's [Element.isempty(content=False)]: no children, no text and no
    attributes. *)
Definition isempty (e : element) : bool :=
  match e with
  | Element _ t a ch =>
      match ch with [] => true | _ => false end
      && match t with None => true | Some _ => false end
      && match a with [] => true | _ => false end
  end.

Definition allowed_empty (e : element) : bool :=
  existsb (String.eqb (el_name e)) EMPTY_ELEMENTS.

(** [prune(el)]: each child is pruned, then the children left empty and not
    in [EMPTY_ELEMENTS] are removed. *)
Fixpoint prune (e : element) : element :=
  match e with
  | Element n t a ch =>
      Element n t a
        (filter (fun c => negb (isempty c && negb (allowed_empty c))) (map prune ch))
  end.

(** suds's [Element.set(name, value)] on the attributes. *)
Definition set_attr (a : dict) (name value : string) : dict := dict_set a name value.

(** [add_attribute_for_value(node)]: the new attributes of the node;
    [py_int] tells whether [int(node.text)] succeeds on a text. *)
Definition add_attribute_for_value (py_int : string -> bool) (e : element) : dict :=
  match e with
  | Element n t a _ =>
      let a1 := if String.eqb n "value" || String.eqb n "val"
                then set_attr a "xsi:type" "xsd:string" else a in
      if String.eqb n "removeKey" then
        match t with
        | Some s => if py_int s then set_attr a1 "xsi:type" "xsd:int"
                    else set_attr a1 "xsi:type" "xsd:string"
        | None => set_attr a1 "xsi:type" "xsd:string"
        end
      else a1
  end.

(** suds's [Element.walk(visitor)] for a visitor that sets attributes: the
    node first, then its children. *)
Fixpoint walk (visit : element -> dict) (e : element) : element :=
  match e with
  | Element n t a ch => Element n t (visit e) (map (walk visit) ch)
  end.

(** [marshalled(context)] on the envelope. *)
Definition marshalled (py_int : string -> bool) (envelope : element) : element :=
  walk (add_attribute_for_value py_int) (prune envelope).

(** Every element strictly below [e] is non-empty or allowed to be empty. *)
Fixpoint well_pruned (e : element) : bool :=
  match e with
  | Element _ _ _ ch =>
      forallb (fun c => (negb (isempty c) || allowed_empty c) && well_pruned c) ch
  end.

(** The elements of the tree, the root first. *)
Fixpoint nodes (e : element) : list element :=
  match e with
  | Element _ _ _ ch => e :: flat_map nodes ch
  end.

End Plugin.

(** ** More of VMwareAPISession (api.py) *)
Module Api2.

(** A property value [invoke_api(vim_util, 'get_object_property', ...)]
    returns for a lease: a string, a [LocalizedMethodFault], [None], or
    another object. *)
Inductive prop_val : Type :=
| PStr (s : string)
| PFault (f : localized_method_fault)
| PNone
| PObject (key : nat).

(** [state == s] for a string [s] *)
Definition state_is (v : prop_val) (s : string) : bool :=
  match v with PStr s' => String.eqb s' s | _ => false end.

(** [localized_method_fault] as [translate_fault] reads it: only a
    [LocalizedMethodFault] has the attributes. *)
Definition lmf_of (v : prop_val) : option localized_method_fault :=
  match v with PFault f => Some f | _ => None end.

Section Logout.
Variable soap_server : world -> string -> moref -> Service.soap_reply.
(** [self.vim.service_content.sessionManager] *)
Variable session_manager : moref.

(** [logout()] *)
Definition logout : M unit :=
  s <- get_session;;
  if truthy (session_id s) then
    try_except
      (_ <- Service.request_handler soap_server "Logout" "logout"
              (Service.MORef session_manager);;
       s1 <- get_session;;
       put_session {| session_id := None; session_username := session_username s1;
                      pbm_client := pbm_client s1 |})
      (fun _ => ret tt)
  else ret tt.

End Logout.

Section Lease.
(** [self.invoke_api(vim_util, 'get_object_property', self.vim, lease, name)] *)
Variable read_prop : string -> M prop_val.
(** [str(lease)] *)
Variable lease_str : string.
(** [str(v)] of a property value that is not a string *)
Variable prop_repr : prop_val -> string.
Variable task_poll_interval : nat.

Definition py_str (v : prop_val) : string :=
  match v with
  | PStr s => s
  | PNone => "None"
  | _ => prop_repr v
  end.

(** [_get_error_message(lease)] *)
Definition _get_error_message : M prop_val :=
  try_except (read_prop "error")
    (fun e => if is_vim_exception e then ret (PStr "Unknown") else raise e).

(** [_poll_lease(lease)]: [Some tt] where it raises [LoopingCallDone()]. *)
Definition _poll_lease : M (option unit) :=
  state <- read_prop "state";;
  if state_is state "ready" then ret (Some tt)
  else if state_is state "initializing" then ret None
  else if state_is state "error" then
    error_msg <- _get_error_message;;
    let excep_msg := "Lease: " ++ lease_str ++ " is in error state. Details: "
                     ++ py_str error_msg ++ "." in
    raise (translate_fault (lmf_of error_msg) (Some excep_msg))
  else
    raise (mk_VimException
             (Some ("Unknown state: " ++ py_str state ++ " for lease: " ++ lease_str ++ "."))
             None).

(** [wait_for_lease_ready(lease)] *)
Definition wait_for_lease_ready (fuel : nat) : M unit :=
  LoopingCall.fixed_interval_looping_call sleep_w fuel task_poll_interval _poll_lease.

End Lease.
End Api2.

(** The state reads of [wait_for_lease_ready] up to its last poll: each one
    reads [initializing] and is followed by the poll interval's sleep. *)
Inductive initializing_polls (read : M Api2.prop_val) (interval : nat)
  : world -> nat -> world -> Prop :=
| initializing_polls_nil w : initializing_polls read interval w 0 w
| initializing_polls_cons w w1 n w2 :
    read w = (Ok (Api2.PStr "initializing"), w1) ->
    initializing_polls read interval (sleep_w interval w1) n w2 ->
    initializing_polls read interval w (S n) w2.

(** ** Paged retrieval: [WithRetrieval] (vim_util.py) *)
Module Retrieval.

(** A [RetrieveResult]: the objects of one page and the token for the next. *)
Record retrieve_result (Obj : Type) := {
  objects : list Obj;
  token : option string
}.
Arguments objects {Obj} r.
Arguments token {Obj} r.

(** The property-collector calls the iteration issues. *)
Inductive call : Type :=
| ContinueRetrievePropertiesEx (token : string)
| CancelRetrievePropertiesEx (token : string).

Section WithRetrieval.
Context {Obj : Type}.
(** The reply of [ContinueRetrievePropertiesEx(collector, token=token)];
    [None] when the server returns no result. *)
Variable continue_server : string -> option (retrieve_result Obj).

(** [_get_token(retrieve_result)] *)
Definition _get_token (r : retrieve_result Obj) : option string := token r.

(** [cancel_retrieval(vim, retrieve_result)] *)
Definition cancel_retrieval (r : retrieve_result Obj) (calls : list call) : list call :=
  let tok := _get_token r in
  if truthy tok then
    match tok with
    | Some t => app calls [CancelRetrievePropertiesEx t]
    | None => calls
    end
  else calls.

(** [continue_retrieval(vim, retrieve_result)] *)
Definition continue_retrieval (r : retrieve_result Obj) (calls : list call)
  : option (retrieve_result Obj) * list call :=
  let tok := _get_token r in
  if truthy tok then
    match tok with
    | Some t => (continue_server t, app calls [ContinueRetrievePropertiesEx t])
    | None => (None, calls)
    end
  else (None, calls).

(** [WithRetrieval.__iter__] driven by a [for] loop whose body stops after
    it has received [n] objects: the objects received, the
    [self.retrieve_result] the suspended generator holds, and the calls.
    The generator only continues a page once the loop asks for an object
    past its end. *)
Fixpoint iterate (fuel n : nat) (retrieve_result : option (retrieve_result Obj))
  (calls : list call) : option (list Obj * option (Retrieval.retrieve_result Obj) * list call) :=
  match fuel with
  | O => None
  | S fuel' =>
      match retrieve_result with
      | None => Some ([], None, calls)
      | Some r =>
          if Nat.leb n (length (objects r)) then
            Some (firstn n (objects r), retrieve_result, calls)
          else
            let '(next, calls1) := continue_retrieval r calls in
            match iterate fuel' (n - length (objects r)) next calls1 with
            | Some (objs, last, calls2) => Some (app (objects r) objs, last, calls2)
            | None => None
            end
      end
  end.

(** [with WithRetrieval(vim, retrieve_result) as objects: for obj in
    objects: ...] with a loop body that stops after [n] objects (a loop that
    runs to the end is any [n] larger than the number of objects):
    [__exit__] cancels the retrieval the generator was left on. *)
Definition with_retrieval (fuel n : nat) (retrieve_result : option (retrieve_result Obj))
  (calls : list call) : option (list Obj * list call) :=
  match iterate fuel n retrieve_result calls with
  | Some (objs, Some r, calls1) => Some (objs, cancel_retrieval r calls1)
  | Some (objs, None, calls1) => Some (objs, calls1)
  | None => None
  end.

End WithRetrieval.
End Retrieval.

(** The pages a retrieval goes through, and the tokens it continues with:
    each page with a non-empty token is followed by the server's reply to
    that token. *)
Inductive retrieval_chain {Obj : Type}
  (continue_server : string -> option (Retrieval.retrieve_result Obj))
  : option (Retrieval.retrieve_result Obj) -> list (Retrieval.retrieve_result Obj)
    -> list string -> Prop :=
| chain_none : retrieval_chain continue_server None [] []
| chain_last r :
    truthy (Retrieval.token r) = false ->
    retrieval_chain continue_server (Some r) [r] []
| chain_next r t pages tokens :
    Retrieval.token r = Some t -> truthy (Some t) = true ->
    retrieval_chain continue_server (continue_server t) pages tokens ->
    retrieval_chain continue_server (Some r) (r :: pages) (t :: tokens).

(** ** Concrete servers, for running the definitions *)
Module Example.

Definition session0 : session :=
  {| session_id := Some "52b7c1e4-5d33-4f7a-9a6e-1c2d3e4f5a6b";
     session_username := Some "Administrator"; pbm_client := false |}.

Definition world0 : world :=
  {| w_session := session0; w_create_session_retry := Retry.init_state; w_trace := [] |}.

Definition is_api_call (ev : event) : bool :=
  match ev with EvApiCall _ _ => true | _ => false end.

(** the number of API calls issued so far *)
Definition api_calls (w : world) : nat := length (filter is_api_call (w_trace w)).

Definition session_active (b : bool) (w : world) : exn + bool := inr b.

Definition login_ok (w : world) : exn + Api.user_session :=
  inr {| Api.key := "5288c3a1-0d2e-4b8f-8c55-77aa01b2c3d4"; Api.userName := "Administrator" |}.

(** A server whose first API call raises [e] and whose later calls answer. *)
Definition fails_first (e : exn) (module method : string) (w : world) : exn + value :=
  if Nat.eqb (api_calls w) 0 then inl e else inr (VObject 42).

Definition file_not_found : exn :=
  VimFaultException [FILE_NOT_FOUND] "File [datastore1] vm1/vm1.vmdk was not found" None
    (Some [("datastore", "datastore1")]).

Definition not_authenticated : exn :=
  VimFaultException [NOT_AUTHENTICATED] "The session is not authenticated." None (Some []).

Definition task_fault : localized_method_fault :=
  {| localizedMessage := Some "File [datastore1] vm1/vm1.vmdk was not found";
     fault_name := Some FILE_NOT_FOUND |}.

(** A server whose n-th read of a task's info reports the n-th state. *)
Definition task_server (states : list string) (module method : string) (w : world)
  : exn + value :=
  let n := api_calls w in
  inr (VTaskInfo {| ti_state := nth n states "error"; ti_error := Some task_fault;
                    ti_key := n |}).

(** A lease whose [state] reads [initializing] until [ready_after] events
    have been recorded, then [ready]. *)
Definition lease_reader (ready_after : nat) (name : string) (w : world)
  : outcome Api2.prop_val * world :=
  (Ok (if String.eqb name "state" then
         if Nat.ltb (length (w_trace w)) ready_after then Api2.PStr "initializing"
         else Api2.PStr "ready"
       else Api2.PNone), w).

End Example.

(** * Properties *)

(** ** Helper lemmas *)

Lemma dict_get_not_in {V : Type} (d : list (string * V)) (k : string) :
  ~ In k (map fst d) -> dict_get d k = None.
Proof.
  induction d as [| [k' v] d IH]; simpl; intros Hk; [reflexivity |].
  destruct (String.eqb_spec k k') as [-> | _]; [tauto |].
  apply IH; tauto.
Qed.

Lemma is_current_session_active_unfold sia w :
  Api.is_current_session_active sia w =
  (match sia w with
   | inr b => Ok b
   | inl e => if is_vim_exception e then Ok false else Raise e
   end,
   log_event (EvSessionIsActive (session_id (w_session w)) (session_username (w_session w))) w).
Proof.
  unfold Api.is_current_session_active, bind, get_session, try_except, rpc.
  destruct (sia w) as [e | b]; [| reflexivity].
  destruct (is_vim_exception e); reflexivity.
Qed.

Lemma log_event_session ev w : w_session (log_event ev w) = w_session w.
Proof. reflexivity. Qed.

(** ** C10 *)

(** C10: for every method [attr_name] reached through [Service.__getattr__],
    the request handler called with [None] as managed object returns [None]
    at once: no request is sent, nothing is raised, the state is unchanged. *)
Theorem request_handler_none_returns_none soap_server attr_name lower_attr_name w :
  Service.request_handler soap_server attr_name lower_attr_name Service.MONone w
  = (Ok VNone, w).
Proof. reflexivity. Qed.

(** ** C4 *)

(** C4 (amended): [is_current_session_active] returns the answer of the
    [SessionIsActive] call; an error of the [VimException] family turns into
    [False], while any other error, such as [VimConnectionException],
    propagates.  The only interaction is the one [SessionIsActive] call. *)
Theorem is_current_session_active_degrades_vim_exceptions sia w :
  Api.is_current_session_active sia w =
  (match sia w with
   | inr b => Ok b
   | inl e => if is_vim_exception e then Ok false else Raise e
   end,
   log_event (EvSessionIsActive (session_id (w_session w)) (session_username (w_session w))) w).
Proof. apply is_current_session_active_unfold. Qed.

(** C4 (counterexample): a [SessionIsActive] call that fails with a
    connection error makes [is_current_session_active] raise it. *)
Lemma is_current_session_active_raises_connection_error :
  let conn := VimConnectionException "requests error in SessionIsActive." None in
  let w := {| w_session := {| session_id := Some "52a1c9f3-3b5e-4c1d-9d2a-0a1b2c3d4e5f";
                              session_username := Some "Administrator";
                              pbm_client := false |};
              w_create_session_retry := Retry.init_state; w_trace := [] |} in
  fst (Api.is_current_session_active (fun _ => inl conn) w) = Raise conn.
Proof. reflexivity. Qed.

(** ** C6 *)

(** C6: [_create_session], once it holds the lock, does not log in again
    when a session id is set and the liveness check reports it active: it
    returns and leaves the session as it was, the liveness call being the
    only interaction.  Otherwise (no session id, or the check reports it
    inactive) it calls [Login] with the configured user name and stores the
    key and the user name the server returns. *)
Theorem create_session_skips_login_for_live_session
    server_username sia login w :
  (forall w1,
     truthy (session_id (w_session w)) = true ->
     Api.is_current_session_active sia w = (Ok true, w1) ->
     Api._create_session_body server_username sia login w = (Ok tt, w1)
     /\ w_session w1 = w_session w
     /\ w_trace w1 = app (w_trace w)
                      [EvSessionIsActive (session_id (w_session w))
                                         (session_username (w_session w))])
  /\ (forall w1 us,
        (truthy (session_id (w_session w)) = false /\ w1 = w
         \/ truthy (session_id (w_session w)) = true
            /\ Api.is_current_session_active sia w = (Ok false, w1)) ->
        login w1 = inr us ->
        exists w2,
          Api._create_session_body server_username sia login w = (Ok tt, w2)
          /\ session_id (w_session w2) = Some (Api.key us)
          /\ session_username (w_session w2) = Some (Api.userName us)
          /\ w_trace w2 = app (app (w_trace w1) [EvLogin server_username])
                              (if pbm_client (w_session w) then [EvSetPbmCookie] else [])).
Proof.
  split.
  - intros w1 Ht Ha.
    unfold Api._create_session_body, bind, get_session.
    rewrite Ht, Ha. simpl.
    rewrite is_current_session_active_unfold in Ha.
    destruct (sia w) as [e | b]; [destruct (is_vim_exception e) |];
      inversion Ha; subst; auto.
  - intros w1 us Hcase Hl.
    assert (Hs : w_session w1 = w_session w).
    { destruct Hcase as [[_ ->] | [_ Ha]]; [reflexivity |].
      rewrite is_current_session_active_unfold in Ha. inversion Ha; reflexivity. }
    unfold Api._create_session_body, bind, get_session.
    destruct Hcase as [[Ht ->] | [Ht Ha]].
    + rewrite Ht. simpl. unfold rpc. rewrite Hl. simpl.
      destruct (pbm_client (w_session w));
        (eexists; split; [reflexivity | simpl; rewrite ?app_nil_r; repeat split]).
    + rewrite Ht, Ha. simpl. unfold rpc. rewrite Hl. simpl. rewrite Hs.
      destruct (pbm_client (w_session w));
        (eexists; split; [reflexivity | simpl; rewrite ?app_nil_r; repeat split]).
Qed.

(** ** C7 *)

(** C7 (amended): every name of the fault registry looks up its own
    exception class, the fifteen classes being pairwise distinct; a name
    outside the registry looks up nothing, and [translate_fault] turns a
    fault of that name into a [VimFaultException] whose fault list is that
    name.  The [SECURITY_ERROR] name is outside the registry. *)
Theorem fault_registry_lookup :
  (forall name c, In (name, c) _fault_classes_registry -> get_fault_class name = Some c)
  /\ NoDup (map snd _fault_classes_registry)
  /\ (forall name, ~ In name (map fst _fault_classes_registry) ->
        get_fault_class name = None
        /\ forall msg excep_msg,
             translate_fault
               (Some {| localizedMessage := Some msg; fault_name := Some name |}) excep_msg
             = mk_VimFaultException [name]
                 (if truthy excep_msg then excep_msg else Some msg) None None)
  /\ ~ In SECURITY_ERROR (map fst _fault_classes_registry).
Proof.
  split; [| split; [| split]].
  - intros name c H. simpl in H.
    repeat (destruct H as [H | H]; [inversion H; subst; reflexivity |]).
    destruct H.
  - repeat constructor; simpl; intuition discriminate.
  - intros name Hn.
    assert (Hg : get_fault_class name = None) by (apply dict_get_not_in; exact Hn).
    split; [exact Hg |].
    intros msg excep_msg. unfold translate_fault. simpl.
    destruct (truthy excep_msg); simpl; rewrite Hg; reflexivity.
  - simpl. intuition discriminate.
Qed.

(** C7 (counterexample): [SECURITY_ERROR] is one of the module's fault-name
    constants, and the lookup finds no exception class for it. *)
Lemma security_error_has_no_fault_class :
  ~ (forall name, In name fault_name_constants ->
                  exists c, get_fault_class name = Some c).
Proof.
  intros H.
  destruct (H SECURITY_ERROR) as [c Hc].
  - unfold fault_name_constants. simpl. tauto.
  - vm_compute in Hc. discriminate.
Qed.

(** ** The retry decorator *)

Lemma retry_func_step {W A : Type} (sleep : nat -> W -> W) c fuel
    (f : W -> outcome A * W) s w :
  Retry.func sleep c (S fuel) f s w =
  match Retry._func c f (s, w) with
  | (Ok (LoopingCall.LoopingCallDone r), st1) => (Ok r, st1)
  | (Ok (LoopingCall.Idle t), (s1, w1)) =>
      Retry.func sleep c fuel f s1 (sleep (Nat.min t (Retry.max_sleep_time c)) w1)
  | (Raise e, st1) => (Raise e, st1)
  | (Diverge, st1) => (Diverge, st1)
  end.
Proof.
  unfold Retry.func. cbn [LoopingCall.dynamic_looping_call].
  destruct (Retry._func c f (s, w)) as [[[r | t] | e |] [s1 w1]]; reflexivity.
Qed.

(** An operation that raises a retryable exception on every call, started
    [m] retries short of the bound, is called [m + 1] more times and then its
    last exception propagates. *)
Lemma retry_exhausts {W A : Type} (sleep : nat -> W -> W) (c : Retry.retry_config)
    (f : W -> outcome A * W) :
  (forall w0, exists e w1, f w0 = (Raise e, w1) /\ Retry.exceptions c e = true) ->
  forall m fuel s w j,
    (0 <= Retry.max_retry_count c)%Z ->
    (Z.of_nat (Retry.retry_count s) + Z.of_nat m)%Z = Retry.max_retry_count c ->
    m < fuel ->
    exists w_last e w',
      f w_last = (Raise e, w')
      /\ Retry.func (fun t '(w0, k) => (sleep t w0, k)) c fuel (counted f) s (w, j)
         = (Raise e, ({| Retry.retry_count := Retry.retry_count s + m;
                         Retry.sleep_time := Retry.sleep_time s + m * Retry.inc_sleep_time c |},
                      (w', j + S m))).
Proof.
  intros Hf m. induction m as [| m IH]; intros fuel s w j Hpos Hcount Hfuel.
  - destruct fuel as [| fuel]; [lia |].
    destruct (Hf w) as (e & w1 & Hfw & He).
    exists w, e, w1. split; [exact Hfw |].
    rewrite retry_func_step. unfold Retry._func, counted. rewrite Hfw, He.
    assert (Hc : (negb (Retry.max_retry_count c =? -1)
                  && (Z.of_nat (Retry.retry_count s) >=? Retry.max_retry_count c))%Z = true).
    { apply andb_true_intro. split.
      - apply negb_true_iff, Z.eqb_neq. lia.
      - apply Z.geb_le. lia. }
    rewrite Hc. destruct s as [rc st]. simpl.
    rewrite !Nat.add_0_r, Nat.add_1_r. reflexivity.
  - destruct fuel as [| fuel]; [lia |].
    destruct (Hf w) as (e & w1 & Hfw & He).
    rewrite retry_func_step. unfold Retry._func at 1. unfold counted at 1.
    rewrite Hfw, He.
    assert (Hc : (negb (Retry.max_retry_count c =? -1)
                  && (Z.of_nat (Retry.retry_count s) >=? Retry.max_retry_count c))%Z = false).
    { apply andb_false_intro2. rewrite Z.geb_leb. apply Z.leb_gt. lia. }
    rewrite Hc.
    destruct (IH fuel {| Retry.retry_count := S (Retry.retry_count s);
                         Retry.sleep_time := Retry.sleep_time s + Retry.inc_sleep_time c |}
                 (sleep (Nat.min (Retry.sleep_time s + Retry.inc_sleep_time c)
                                 (Retry.max_sleep_time c)) w1) (S j))
      as (w_last & e' & w' & Hlast & Hrun).
    + exact Hpos.
    + cbn [Retry.retry_count]. rewrite Nat2Z.inj_succ. lia.
    + lia.
    + exists w_last, e', w'. split; [exact Hlast |].
      cbn [Retry.sleep_time]. rewrite Hrun. f_equal. f_equal.
      * cbn [Retry.retry_count Retry.sleep_time]. f_equal; simpl; lia.
      * f_equal. lia.
Qed.

(** What a run of the decorated function does to the decorator's attributes:
    the counter only grows, and the sleep time grows with it. *)
Lemma retry_state_grows {W A : Type} (sleep : nat -> W -> W) c :
  forall fuel (f : W -> outcome A * W) s w,
    let s' := fst (snd (Retry.func sleep c fuel f s w)) in
    Retry.retry_count s <= Retry.retry_count s'
    /\ Retry.sleep_time s'
       = Retry.sleep_time s + (Retry.retry_count s' - Retry.retry_count s)
                              * Retry.inc_sleep_time c.
Proof.
  induction fuel as [| fuel IH]; intros f s w; simpl.
  - unfold Retry.func. simpl. split; [lia |]. rewrite Nat.sub_diag. lia.
  - rewrite retry_func_step. unfold Retry._func.
    destruct (f w) as [[r | e |] w1]; simpl; [split; [lia | rewrite Nat.sub_diag; lia] | |
                                              split; [lia | rewrite Nat.sub_diag; lia]].
    destruct (Retry.exceptions c e); [| simpl; split; [lia | rewrite Nat.sub_diag; lia]].
    destruct (_ && _)%Z; [simpl; split; [lia | rewrite Nat.sub_diag; lia] |].
    destruct (IH f {| Retry.retry_count := S (Retry.retry_count s);
                      Retry.sleep_time := Retry.sleep_time s + Retry.inc_sleep_time c |}
                 (sleep (Nat.min (Retry.sleep_time s + Retry.inc_sleep_time c)
                                 (Retry.max_sleep_time c)) w1)) as [H1 H2].
    simpl in H1, H2. split; [lia |]. rewrite H2.
    destruct (Retry.retry_count (fst (snd (Retry.func sleep c fuel f _ _)))) as [| k]; [lia |].
    replace (S k - Retry.retry_count s) with (S (k - Retry.retry_count s)) by lia.
    simpl. lia.
Qed.

(** ** C2 *)

(** C2: a [RetryDecorator] built with [max_retry_count = n >= 0], wrapping
    an operation that raises an exception of its list on every call, calls
    the operation exactly [n + 1] times and then raises the exception of the
    last call; [n = 0] is a single call.  The decorator starts from the
    attributes [__init__] sets. *)
Theorem retry_decorator_calls_n_plus_one {W A : Type} (sleep : nat -> W -> W)
    (n inc max_sleep : nat) (excs : exn -> bool) (f : W -> outcome A * W)
    (fuel : nat) (w : W) :
  (forall w0, exists e w1, f w0 = (Raise e, w1) /\ excs e = true) ->
  n < fuel ->
  exists w_last e w',
    f w_last = (Raise e, w')
    /\ Retry.func (fun t '(w0, k) => (sleep t w0, k))
         {| Retry.max_retry_count := Z.of_nat n; Retry.inc_sleep_time := inc;
            Retry.max_sleep_time := max_sleep; Retry.exceptions := excs |}
         fuel (counted f) Retry.init_state (w, 0)
       = (Raise e, ({| Retry.retry_count := n; Retry.sleep_time := n * inc |},
                    (w', S n))).
Proof.
  intros Hf Hfuel.
  destruct (retry_exhausts sleep
              {| Retry.max_retry_count := Z.of_nat n; Retry.inc_sleep_time := inc;
                 Retry.max_sleep_time := max_sleep; Retry.exceptions := excs |}
              f Hf n fuel Retry.init_state w 0)
    as (w_last & e & w' & Hlast & Hrun); simpl; try lia.
  exists w_last, e, w'. split; [exact Hlast |]. rewrite Hrun. reflexivity.
Qed.

(** C2 (witness): [max_retry_count = 2] and a call that always fails to
    connect: three calls, then the error. *)
Lemma retry_decorator_calls_n_plus_one_witness :
  exists w_last e w',
    (fun (_ : unit) => (Raise (VimConnectionException "requests error in Login." None), tt))
      w_last = (@Raise value e, w')
    /\ Retry.func (fun t '(w0, k) => ((fun (_ : nat) (u : unit) => u) t w0, k))
         {| Retry.max_retry_count := Z.of_nat 2; Retry.inc_sleep_time := 10;
            Retry.max_sleep_time := 60; Retry.exceptions := Api.is_connection_exception |}
         3 (counted (fun (_ : unit) =>
                       (@Raise value (VimConnectionException "requests error in Login." None), tt)))
         Retry.init_state (tt, 0)
       = (Raise e, ({| Retry.retry_count := 2; Retry.sleep_time := 2 * 10 |}, (w', 3))).
Proof.
  apply (retry_decorator_calls_n_plus_one (fun (_ : nat) (u : unit) => u) 2 10 60
           Api.is_connection_exception
           (fun (_ : unit) =>
              (@Raise value (VimConnectionException "requests error in Login." None), tt))
           3 tt).
  - intros w0. eexists. eexists. split; reflexivity.
  - lia.
Defined.

(** ** C9 *)

(** C9 (amended): the retry counter and sleep time are attributes of the
    [RetryDecorator] object and are never reset: a run of the decorated
    function only adds to them, [10] seconds of sleep time per retry.  The
    decorator of [_create_session] is built once, so its attributes carry
    over from one call of [_create_session] to the next, while [invoke_api]
    builds its decorator anew, from [__init__]'s zeros, on every call. *)
Theorem retry_state_lives_on_the_decorator :
  (forall (W A : Type) (sleep : nat -> W -> W) c fuel (f : W -> outcome A * W) s w,
     let s' := fst (snd (Retry.func sleep c fuel f s w)) in
     Retry.retry_count s <= Retry.retry_count s'
     /\ Retry.sleep_time s'
        = Retry.sleep_time s + (Retry.retry_count s' - Retry.retry_count s)
                               * Retry.inc_sleep_time c)
  /\ (forall server_username sia login fuel w,
        let r0 := w_create_session_retry w in
        let r1 := w_create_session_retry
                    (snd (Api._create_session server_username sia login fuel w)) in
        Retry.retry_count r0 <= Retry.retry_count r1
        /\ Retry.sleep_time r1
           = Retry.sleep_time r0 + (Retry.retry_count r1 - Retry.retry_count r0) * 10)
  /\ (forall server_username api_retry_count sia login srv_api fuel module method w,
        Api.invoke_api server_username api_retry_count sia login srv_api fuel module method w
        = let '(o, (_, w')) :=
            Retry.func sleep_w (Api.invoke_api_retry api_retry_count) fuel
              (Api._invoke_api server_username sia login srv_api fuel module method)
              Retry.init_state w in
          (o, w')).
Proof.
  split; [| split].
  - intros W A sleep c fuel f s w. apply retry_state_grows.
  - intros server_username sia login fuel w. cbv zeta.
    unfold Api._create_session.
    pose proof (retry_state_grows sleep_w Api.create_session_retry fuel
                  (Api._create_session_body server_username sia login)
                  (w_create_session_retry w) w) as [H1 H2].
    destruct (Retry.func sleep_w Api.create_session_retry fuel
                (Api._create_session_body server_username sia login)
                (w_create_session_retry w) w) as [o [s' w']].
    simpl in *. split; [exact H1 | exact H2].
  - intros. reflexivity.
Qed.

(** C9 (counterexample): a decorator with [max_retry_count = 1] whose
    function fails to connect once and then succeeds keeps [retry_count = 1]
    and [sleep_time = 10] after that call; the next call of the same
    decorated function starts from there and, failing to connect, gets no
    retry at all. *)
Lemma retry_state_carries_over_between_calls :
  let conn := VimConnectionException "requests error in Login." None in
  let c := {| Retry.max_retry_count := 1; Retry.inc_sleep_time := 10;
              Retry.max_sleep_time := 60; Retry.exceptions := Api.is_connection_exception |} in
  let first := fun (k : nat) => if Nat.eqb k 0 then (@Raise value conn, 1) else (Ok VNone, S k) in
  let s1 := fst (snd (Retry.func (fun _ k => k) c 5 first Retry.init_state 0)) in
  fst (Retry.func (fun _ k => k) c 5 first Retry.init_state 0) = Ok VNone
  /\ s1 = {| Retry.retry_count := 1; Retry.sleep_time := 10 |}
  /\ Retry.func (fun _ st => st) c 5 (counted (fun (u : unit) => (@Raise value conn, u))) s1 (tt, 0)
     = (Raise conn, (s1, (tt, 1))).
Proof. vm_compute. repeat split. Qed.

(** ** invoke_api *)

Lemma str_append_assoc (a b c : string) : ((a ++ b) ++ c) = (a ++ (b ++ c)).
Proof. induction a as [| x a IH]; simpl; [reflexivity | now rewrite IH]. Qed.

Lemma existsb_eqb_in (x : string) (l : list string) :
  existsb (String.eqb x) l = true <-> In x l.
Proof.
  rewrite existsb_exists. split.
  - intros (y & Hy & Heq). apply String.eqb_eq in Heq. subst. exact Hy.
  - intros H. exists x. split; [exact H | apply String.eqb_refl].
Qed.

(** The message of a [VimFaultException] begins its [str()]. *)
Lemma description_fault_prefix fault_list message cause details :
  exists rest,
    description (VimFaultException fault_list message cause details) = message ++ rest.
Proof.
  cbn [description]. destruct cause as [c |].
  - eexists. rewrite str_append_assoc. reflexivity.
  - eexists. reflexivity.
Qed.

(** With a fault list, [str()] is not empty. *)
Lemma description_fault_nonempty fault fault_list message cause details :
  String.eqb (description (VimFaultException (fault :: fault_list) message cause details)) ""
  = false.
Proof.
  cbn [description].
  match goal with |- String.eqb (?p ++ _) "" = false => destruct p; reflexivity end.
Qed.

(** The first call of [_invoke_api] under the decorator of [invoke_api]. *)
Lemma invoke_api_first_call server_username api_retry_count sia login srv_api fuel
    module method w :
  Api.invoke_api server_username api_retry_count sia login srv_api (S fuel) module method w
  = match Api._invoke_api server_username sia login srv_api (S fuel) module method w with
    | (Ok r, w1) => (Ok r, w1)
    | (Raise e, w1) =>
        if Api.is_overload_or_connection_exception e then
          if negb (api_retry_count =? -1)%Z && (0 >=? api_retry_count)%Z
          then (Raise e, w1)
          else
            let '(o, (_, w')) :=
              Retry.func sleep_w (Api.invoke_api_retry api_retry_count) fuel
                (Api._invoke_api server_username sia login srv_api (S fuel) module method)
                {| Retry.retry_count := 1; Retry.sleep_time := 10 |} (sleep_w 10 w1) in
            (o, w')
        else (Raise e, w1)
    | (Diverge, w1) => (Diverge, w1)
    end.
Proof.
  unfold Api.invoke_api at 1. rewrite retry_func_step. unfold Retry._func.
  destruct (Api._invoke_api server_username sia login srv_api (S fuel) module method w)
    as [[r | e |] w1]; try reflexivity.
  simpl. destruct (Api.is_overload_or_connection_exception e); [| reflexivity].
  destruct (_ && _)%Z; reflexivity.
Qed.

(** ** C3 *)

(** C3: when the call raises a [VimFaultException] whose fault list does not
    contain [NotAuthenticated], [invoke_api] calls it once and raises at once,
    with no sleep and no other interaction: the registered class of the first
    fault, with the fault's [str()] as message (which begins with the fault's
    message) and its details, or, for an empty list or an unregistered first
    fault, the [VimFaultException] itself. *)
Theorem invoke_api_other_fault_not_retried server_username api_retry_count sia login
    srv_api fuel module method fault_list message cause details w :
  let excep := VimFaultException fault_list message cause details in
  ~ In NOT_AUTHENTICATED fault_list ->
  srv_api module method w = inl excep ->
  Api.invoke_api server_username api_retry_count sia login srv_api (S fuel) module method w
  = (Raise (match fault_list with
            | fault :: _ =>
                match get_fault_class fault with
                | Some clazz => FaultClassException clazz (description excep) details
                | None => excep
                end
            | [] => excep
            end),
     log_event (EvApiCall module method) w)
  /\ exists rest, description excep = message ++ rest.
Proof.
  intros excep Hna Hsrv. split; [| apply description_fault_prefix].
  rewrite invoke_api_first_call.
  unfold Api._invoke_api at 1, try_except, rpc. rewrite Hsrv.
  cbn beta iota.
  assert (Hx : existsb (String.eqb NOT_AUTHENTICATED) fault_list = false).
  { destruct (existsb _ _) eqn:E; [| reflexivity].
    apply existsb_eqb_in in E. contradiction. }
  unfold excep. rewrite Hx.
  destruct fault_list as [| fault rest]; [reflexivity |].
  destruct (get_fault_class fault) as [clazz |]; [| reflexivity].
  unfold raise, mk_fault_class, init_message.
  rewrite description_fault_nonempty. reflexivity.
Qed.

(** ** C1 *)

(** C1: when the call raises a [VimFaultException] whose fault list contains
    [NotAuthenticated], [_invoke_api] asks whether the session is active.  If
    it is, the result is the empty list, with no [Login] and the session
    untouched.  If it is not, [_invoke_api] re-creates the session and then
    raises a [VimConnectionException] (not the fault) that the decorator of
    [invoke_api] retries: with a retry budget left, [invoke_api] sleeps and
    calls the original method again. *)
Theorem invoke_api_not_authenticated server_username api_retry_count sia login srv_api
    fuel module method fault_list message cause details w :
  let excep := VimFaultException fault_list message cause details in
  let w1 := log_event (EvApiCall module method) w in
  In NOT_AUTHENTICATED fault_list ->
  srv_api module method w = inl excep ->
  (forall w2,
     Api.is_current_session_active sia w1 = (Ok true, w2) ->
     Api._invoke_api server_username sia login srv_api (S fuel) module method w
       = (Ok (VList []), w2)
     /\ w_session w2 = w_session w
     /\ w_trace w2 = app (w_trace w)
                       [EvApiCall module method;
                        EvSessionIsActive (session_id (w_session w))
                                          (session_username (w_session w))])
  /\ (forall w2,
        Api.is_current_session_active sia w1 = (Ok false, w2) ->
        exists excep_msg,
          Api._invoke_api server_username sia login srv_api (S fuel) module method w
          = match Api._create_session server_username sia login (S fuel) w2 with
            | (Ok _, w3) => (Raise (VimConnectionException excep_msg (Some excep)), w3)
            | (Raise e, w3) => (Raise e, w3)
            | (Diverge, w3) => (Diverge, w3)
            end
          /\ Api.is_overload_or_connection_exception
               (VimConnectionException excep_msg (Some excep)) = true
          /\ (forall w3,
                Api._create_session server_username sia login (S fuel) w2 = (Ok tt, w3) ->
                (0 < api_retry_count)%Z \/ api_retry_count = (-1)%Z ->
                Api.invoke_api server_username api_retry_count sia login srv_api (S fuel)
                  module method w
                = let '(o, (_, w')) :=
                    Retry.func sleep_w (Api.invoke_api_retry api_retry_count) fuel
                      (Api._invoke_api server_username sia login srv_api (S fuel) module method)
                      {| Retry.retry_count := 1; Retry.sleep_time := 10 |} (sleep_w 10 w3) in
                  (o, w'))).
Proof.
  intros excep w1 Hna Hsrv.
  assert (Hx : existsb (String.eqb NOT_AUTHENTICATED) fault_list = true)
    by (apply existsb_eqb_in; exact Hna).
  assert (Hcall : forall k,
             Api._invoke_api server_username sia login srv_api k module method w
             = (active <- Api.is_current_session_active sia;;
                if active then ret (VList [])
                else
                  s <- get_session;;
                  let excep_msg :=
                    "Current session: " ++ Api._trunc_id (session_id s)
                    ++ " is inactive; re-creating the session while invoking method "
                    ++ module ++ "." ++ method ++ "." in
                  Api._create_session server_username sia login k;;
                  raise (mk_VimConnectionException excep_msg (Some excep))) w1).
  { intros k. unfold Api._invoke_api at 1, try_except, rpc. rewrite Hsrv.
    cbn beta iota. unfold excep. rewrite Hx. reflexivity. }
  split.
  - intros w2 Ha.
    pose proof Ha as Ha'. rewrite is_current_session_active_unfold in Ha'.
    injection Ha' as _ Hw2.
    rewrite Hcall. unfold bind at 1. rewrite Ha. split; [reflexivity |].
    subst w2 w1. split; [reflexivity |].
    unfold log_event. simpl. rewrite <- app_assoc. reflexivity.
  - intros w2 Ha.
    set (excep_msg := "Current session: " ++ Api._trunc_id (session_id (w_session w2))
                      ++ " is inactive; re-creating the session while invoking method "
                      ++ module ++ "." ++ method ++ ".").
    exists excep_msg.
    assert (Hrun : Api._invoke_api server_username sia login srv_api (S fuel) module method w
                   = match Api._create_session server_username sia login (S fuel) w2 with
                     | (Ok _, w3) => (Raise (VimConnectionException excep_msg (Some excep)), w3)
                     | (Raise e, w3) => (Raise e, w3)
                     | (Diverge, w3) => (Diverge, w3)
                     end).
    { rewrite Hcall. unfold bind at 1. rewrite Ha. cbn beta iota.
      unfold bind, get_session. cbn beta iota.
      destruct (Api._create_session server_username sia login (S fuel) w2)
        as [[u | e |] w3]; reflexivity. }
    split; [exact Hrun | split; [reflexivity |]].
    intros w3 Hcs Hbudget.
    rewrite invoke_api_first_call, Hrun, Hcs. cbn beta iota.
    assert (Hc : (negb (api_retry_count =? -1) && (0 >=? api_retry_count))%Z = false).
    { destruct Hbudget as [Hp | ->]; [| reflexivity].
      apply andb_false_intro2. rewrite Z.geb_leb. apply Z.leb_gt. exact Hp. }
    simpl Api.is_overload_or_connection_exception. cbn iota. rewrite Hc. reflexivity.
Qed.

(** ** C5 *)

Lemma collect_faults_fst_acc detail acc d :
  fst (fold_left
         (fun '(fault_list, details) (fault : Service.fault_elem) =>
            (app fault_list [Service.normalize_fault_type (Service.fe_type fault)],
             fold_left (fun d '(name, text) => dict_set d name text)
               (Service.fe_children fault) details))
         detail (acc, d))
  = app acc (map (fun f => Service.normalize_fault_type (Service.fe_type f)) detail).
Proof.
  revert acc d. induction detail as [| f rest IH]; intros acc d.
  - simpl. rewrite app_nil_r. reflexivity.
  - simpl. rewrite IH, <- app_assoc. reflexivity.
Qed.

Lemma collect_faults_fst detail :
  fst (Service.collect_faults detail)
  = map (fun f => Service.normalize_fault_type (Service.fe_type f)) detail.
Proof. unfold Service.collect_faults. apply collect_faults_fst_acc. Qed.

Lemma collect_faults_snd_types pre post f t :
  snd (Service.collect_faults (app pre (f :: post)))
  = snd (Service.collect_faults
           (app pre ({| Service.fe_type := t; Service.fe_children := Service.fe_children f |}
                     :: post))).
Proof.
  unfold Service.collect_faults. rewrite !fold_left_app.
  match goal with
  | |- context [fold_left ?F pre ([], [])] => destruct (fold_left F pre ([], [])) as [acc d]
  end.
  cbn [fold_left Service.fe_type Service.fe_children].
  generalize (fold_left (fun d '(name, text) => dict_set d name text)
                (Service.fe_children f) d) as d'.
  generalize (app acc [Service.normalize_fault_type (Service.fe_type f)]) as a1.
  generalize (app acc [Service.normalize_fault_type t]) as a2.
  clear. induction post as [| g rest IH]; intros a2 a1 d'; [reflexivity |].
  simpl. apply IH.
Qed.

Lemma handle_webfault_shape attr_name faultstring detail :
  Service.handle_soap_error attr_name (Service.WebFault faultstring detail)
  = mk_VimFaultException (fst (Service.collect_faults detail)) faultstring
      (Some (Service.webfault_cause faultstring))
      (Some (snd (Service.collect_faults detail))).
Proof.
  unfold Service.handle_soap_error. destruct (Service.collect_faults detail). reflexivity.
Qed.

(** C5: the [WebFault] handler of [request_handler] reports a fault whose
    type ends with [SecurityError] as [NotAuthenticated]: the fault list of
    the [VimFaultException] it raises is the list of normalized types, so it
    contains [NotAuthenticated] (the list [_invoke_api] tests for session
    expiry), and the exception raised is the very one a fault of type
    [NotAuthenticated] with the same children would give. *)
Theorem security_error_fault_normalized :
  (forall t, ends_with SECURITY_ERROR t = true ->
             Service.normalize_fault_type t = NOT_AUTHENTICATED)
  /\ (forall attr_name faultstring detail,
        exists message cause details,
          Service.handle_soap_error attr_name (Service.WebFault faultstring detail)
          = VimFaultException
              (map (fun f => Service.normalize_fault_type (Service.fe_type f)) detail)
              message cause details)
  /\ (forall attr_name faultstring detail f,
        In f detail -> ends_with SECURITY_ERROR (Service.fe_type f) = true ->
        exists fault_list message cause details,
          Service.handle_soap_error attr_name (Service.WebFault faultstring detail)
          = VimFaultException fault_list message cause details
          /\ In NOT_AUTHENTICATED fault_list
          /\ existsb (String.eqb NOT_AUTHENTICATED) fault_list = true)
  /\ (forall attr_name faultstring pre post f,
        ends_with SECURITY_ERROR (Service.fe_type f) = true ->
        Service.handle_soap_error attr_name (Service.WebFault faultstring (app pre (f :: post)))
        = Service.handle_soap_error attr_name
            (Service.WebFault faultstring
               (app pre ({| Service.fe_type := NOT_AUTHENTICATED;
                            Service.fe_children := Service.fe_children f |} :: post)))).
Proof.
  assert (Hn : forall t, ends_with SECURITY_ERROR t = true ->
                         Service.normalize_fault_type t = NOT_AUTHENTICATED).
  { intros t Ht. unfold Service.normalize_fault_type. rewrite Ht. reflexivity. }
  split; [exact Hn |].
  split.
  { intros attr_name faultstring detail. rewrite handle_webfault_shape, collect_faults_fst.
    do 3 eexists. reflexivity. }
  split.
  { intros attr_name faultstring detail f Hin Hs.
    rewrite handle_webfault_shape, collect_faults_fst.
    do 4 eexists. split; [reflexivity |].
    assert (Hin' : In NOT_AUTHENTICATED
                     (map (fun f => Service.normalize_fault_type (Service.fe_type f)) detail)).
    { rewrite <- (Hn _ Hs). apply (in_map (fun f => Service.normalize_fault_type
                                                     (Service.fe_type f))). exact Hin. }
    split; [exact Hin' | apply existsb_eqb_in; exact Hin']. }
  intros attr_name faultstring pre post f Hs.
  rewrite !handle_webfault_shape, !collect_faults_fst, !map_app.
  rewrite <- collect_faults_snd_types.
  simpl map. rewrite (Hn _ Hs). reflexivity.
Qed.

(** ** Witnesses of C3 and C1 *)

(** C3 at a [FileNotFound] fault: the [FileNotFoundException] is raised at
    the first call, carrying the fault's message and details. *)
Lemma invoke_api_other_fault_not_retried_witness :
  Api.invoke_api "Administrator" 3%Z (Example.session_active true) Example.login_ok
    (Example.fails_first Example.file_not_found) 4 "vim_util" "get_objects" Example.world0
  = (Raise (FaultClassException FileNotFoundException (description Example.file_not_found)
              (Some [("datastore", "datastore1")])),
     log_event (EvApiCall "vim_util" "get_objects") Example.world0)
  /\ exists rest, description Example.file_not_found
                  = "File [datastore1] vm1/vm1.vmdk was not found" ++ rest.
Proof.
  exact (invoke_api_other_fault_not_retried "Administrator" 3%Z
           (Example.session_active true) Example.login_ok
           (Example.fails_first Example.file_not_found) 3 "vim_util" "get_objects"
           [FILE_NOT_FOUND] "File [datastore1] vm1/vm1.vmdk was not found" None
           (Some [("datastore", "datastore1")]) Example.world0
           ltac:(simpl; unfold NOT_AUTHENTICATED, FILE_NOT_FOUND; intuition discriminate)
           eq_refl).
Defined.

(** C1 at a [NotAuthenticated] fault: with a live session the call returns
    the empty list; with an expired one the session is re-created and the
    call is issued again by the retry loop. *)
Lemma invoke_api_not_authenticated_witness :
  (exists w2,
     Api._invoke_api "Administrator" (Example.session_active true) Example.login_ok
       (Example.fails_first Example.not_authenticated) 4 "vim_util" "get_objects"
       Example.world0 = (Ok (VList []), w2))
  /\ (exists w3,
        Api.invoke_api "Administrator" 3%Z (Example.session_active false) Example.login_ok
          (Example.fails_first Example.not_authenticated) 4 "vim_util" "get_objects"
          Example.world0
        = let '(o, (_, w')) :=
            Retry.func sleep_w (Api.invoke_api_retry 3%Z) 3
              (Api._invoke_api "Administrator" (Example.session_active false)
                 Example.login_ok (Example.fails_first Example.not_authenticated) 4
                 "vim_util" "get_objects")
              {| Retry.retry_count := 1; Retry.sleep_time := 10 |} (sleep_w 10 w3) in
          (o, w')).
Proof.
  split.
  - destruct (invoke_api_not_authenticated "Administrator" 3%Z
                (Example.session_active true) Example.login_ok
                (Example.fails_first Example.not_authenticated) 3 "vim_util" "get_objects"
                [NOT_AUTHENTICATED] "The session is not authenticated." None (Some [])
                Example.world0 ltac:(simpl; left; reflexivity) eq_refl) as [Ha _].
    eexists. exact (proj1 (Ha _ eq_refl)).
  - destruct (invoke_api_not_authenticated "Administrator" 3%Z
                (Example.session_active false) Example.login_ok
                (Example.fails_first Example.not_authenticated) 3 "vim_util" "get_objects"
                [NOT_AUTHENTICATED] "The session is not authenticated." None (Some [])
                Example.world0 ltac:(simpl; left; reflexivity) eq_refl) as [_ Hb].
    destruct (Hb _ eq_refl) as [excep_msg [_ [_ Hc]]].
    eexists. apply Hc; [reflexivity | left; lia].
Defined.

(** ** C8 *)

Lemma task_step_pending ti w :
  Api.task_state_pending (ti_state ti) = true ->
  Api.task_step (VTaskInfo ti) w = (Ok None, w).
Proof. intros Hp. unfold Api.task_step. rewrite Hp. reflexivity. Qed.

Lemma task_step_terminal ti w :
  Api.task_state_pending (ti_state ti) = false ->
  Api.task_step (VTaskInfo ti) w
  = (if String.eqb (ti_state ti) "success" then Ok (Some (VTaskInfo ti))
     else Raise (translate_fault (ti_error ti) None), w).
Proof.
  intros Hp. unfold Api.task_step. rewrite Hp.
  destruct (String.eqb (ti_state ti) "success"); reflexivity.
Qed.

(** The poll loop over any read of the task info. *)
Lemma poll_loop read interval w pending w_p last w_last fuel :
  pending_polls read interval w pending w_p ->
  read w_p = (Ok (VTaskInfo last), w_last) ->
  Api.task_state_pending (ti_state last) = false ->
  length pending < fuel ->
  LoopingCall.fixed_interval_looping_call sleep_w fuel interval
    (task_info <- read;; Api.task_step task_info) w
  = (if String.eqb (ti_state last) "success" then Ok (VTaskInfo last)
     else Raise (translate_fault (ti_error last) None), w_last).
Proof.
  intros Hpp Hlast Hterm. revert fuel.
  induction Hpp as [w | w w1 ti tis w2 Hread Hpend Hrest IH]; intros fuel Hfuel;
    (destruct fuel as [| fuel]; [simpl in Hfuel; lia |]); simpl.
  - unfold bind at 1. rewrite Hlast, task_step_terminal by exact Hterm.
    destruct (String.eqb (ti_state last) "success"); reflexivity.
  - unfold bind at 1. rewrite Hread, task_step_pending by exact Hpend.
    apply IH; [exact Hlast | simpl in Hfuel; lia].
Qed.

(** C8: [wait_for_task] reads the task info once per poll.  While the state
    is [queued] or [running] it sleeps the poll interval and polls again;
    on the first poll that reads any other state it stops, returning the
    task info for [success] and raising [translate_fault] of the task's
    error for every other state.  Nothing is read after that poll. *)
Theorem wait_for_task_terminal_state server_username api_retry_count task_poll_interval
    sia login srv_api fuel w pending w_p last w_last :
  let read := Api.invoke_api server_username api_retry_count sia login srv_api fuel
                "vim_util" "get_object_property" in
  pending_polls read task_poll_interval w pending w_p ->
  read w_p = (Ok (VTaskInfo last), w_last) ->
  Api.task_state_pending (ti_state last) = false ->
  length pending < fuel ->
  Api.wait_for_task server_username api_retry_count task_poll_interval sia login srv_api
    fuel w
  = (if String.eqb (ti_state last) "success" then Ok (VTaskInfo last)
     else Raise (translate_fault (ti_error last) None), w_last)
  /\ (forall s, Api.task_state_pending s = true <-> s = "queued" \/ s = "running").
Proof.
  intros read Hpp Hlast Hterm Hfuel. split.
  - unfold Api.wait_for_task, Api._poll_task. fold read.
    exact (poll_loop read task_poll_interval w pending w_p last w_last fuel
             Hpp Hlast Hterm Hfuel).
  - intros s. unfold Api.task_state_pending. simpl.
    destruct (String.eqb_spec s "queued") as [-> | Hq];
      [tauto | destruct (String.eqb_spec s "running"); simpl; intuition congruence].
Qed.

(** C8 at the sequence [queued, running, success], and at [queued, error]. *)
Lemma wait_for_task_terminal_state_witness :
  fst (Api.wait_for_task "Administrator" 3%Z 1 (Example.session_active true)
         Example.login_ok (Example.task_server ["queued"; "running"; "success"]) 5
         Example.world0)
  = Ok (VTaskInfo {| ti_state := "success"; ti_error := Some Example.task_fault;
                     ti_key := 2 |})
  /\ fst (Api.wait_for_task "Administrator" 3%Z 1 (Example.session_active true)
            Example.login_ok (Example.task_server ["queued"; "error"]) 5 Example.world0)
     = Raise (translate_fault (Some Example.task_fault) None).
Proof.
  split.
  - set (read := Api.invoke_api "Administrator" 3%Z (Example.session_active true)
                   Example.login_ok (Example.task_server ["queued"; "running"; "success"]) 5
                   "vim_util" "get_object_property").
    set (w_a := snd (read Example.world0)).
    set (w_b := snd (read (sleep_w 1 w_a))).
    assert (Hpp : pending_polls read 1 Example.world0
                    [{| ti_state := "queued"; ti_error := Some Example.task_fault;
                        ti_key := 0 |};
                     {| ti_state := "running"; ti_error := Some Example.task_fault;
                        ti_key := 1 |}] (sleep_w 1 w_b)).
    { apply (pending_polls_cons _ _ _ w_a); [vm_compute; reflexivity | reflexivity |].
      apply (pending_polls_cons _ _ _ w_b); [vm_compute; reflexivity | reflexivity |].
      apply pending_polls_nil. }
    destruct (wait_for_task_terminal_state "Administrator" 3%Z 1
                (Example.session_active true) Example.login_ok
                (Example.task_server ["queued"; "running"; "success"]) 5 Example.world0 _ _
                {| ti_state := "success"; ti_error := Some Example.task_fault; ti_key := 2 |}
                (snd (read (sleep_w 1 w_b))) Hpp ltac:(vm_compute; reflexivity) eq_refl
                ltac:(simpl; lia)) as [H _].
    rewrite H. reflexivity.
  - set (read := Api.invoke_api "Administrator" 3%Z (Example.session_active true)
                   Example.login_ok (Example.task_server ["queued"; "error"]) 5
                   "vim_util" "get_object_property").
    set (w_a := snd (read Example.world0)).
    assert (Hpp : pending_polls read 1 Example.world0
                    [{| ti_state := "queued"; ti_error := Some Example.task_fault;
                        ti_key := 0 |}] (sleep_w 1 w_a)).
    { apply (pending_polls_cons _ _ _ w_a); [vm_compute; reflexivity | reflexivity |].
      apply pending_polls_nil. }
    destruct (wait_for_task_terminal_state "Administrator" 3%Z 1
                (Example.session_active true) Example.login_ok
                (Example.task_server ["queued"; "error"]) 5 Example.world0 _ _
                {| ti_state := "error"; ti_error := Some Example.task_fault; ti_key := 1 |}
                (snd (read (sleep_w 1 w_a))) Hpp ltac:(vm_compute; reflexivity) eq_refl
                ltac:(simpl; lia)) as [H _].
    rewrite H. reflexivity.
Defined.

(** * Further properties of the code *)

(** ** Strings and dicts *)

Lemma str_append_nil_r (a : string) : a ++ "" = a.
Proof. induction a as [| x a IH]; simpl; [reflexivity | now rewrite IH]. Qed.

Lemma init_message_given fmt m : m <> "" -> init_message fmt (Some m) = m.
Proof.
  intros Hm. unfold init_message. destruct (String.eqb_spec m "") as [-> | _]; [congruence |].
  reflexivity.
Qed.

Lemma substring_length_le s k m : String.length (substring k m s) <= m.
Proof.
  revert k m. induction s as [| c s IH]; intros k m;
    destruct k as [| k]; destruct m as [| m]; simpl; try lia.
  - specialize (IH 0 m). lia.
  - apply IH.
  - apply IH.
Qed.

Lemma substring_split s k :
  k <= String.length s ->
  s = substring 0 k s ++ substring k (String.length s - k) s.
Proof.
  assert (Hfull : forall t, substring 0 (String.length t) t = t).
  { induction t as [| c t IH]; [reflexivity |]. simpl. f_equal. exact IH. }
  revert k. induction s as [| c s IH]; intros k Hk; simpl in *.
  - destruct k; [reflexivity | lia].
  - destruct k as [| k]; simpl.
    + f_equal. symmetry. apply Hfull.
    + f_equal. apply IH. lia.
Qed.

Lemma substring_app_skip a b :
  substring (String.length a) (String.length (a ++ b) - String.length a) (a ++ b) = b.
Proof.
  induction a as [| c a IH]; simpl.
  - rewrite Nat.sub_0_r. induction b as [| c b IH]; [reflexivity |]. simpl. f_equal. exact IH.
  - exact IH.
Qed.

Lemma dict_get_pydict_set {V : Type} (d : list (string * V)) k v k' :
  dict_get (pydict_set d k v) k' = if String.eqb k' k then Some v else dict_get d k'.
Proof.
  induction d as [| [k0 v0] d IH]; simpl; [reflexivity |].
  destruct (String.eqb_spec k k0) as [-> | Hne]; simpl.
  - destruct (String.eqb k' k0); reflexivity.
  - rewrite IH. destruct (String.eqb_spec k' k0) as [-> | _];
      [destruct (String.eqb_spec k0 k); [congruence | reflexivity] | reflexivity].
Qed.

Lemma dict_get_dict_set (d : dict) k v k' :
  dict_get (dict_set d k v) k' = if String.eqb k' k then Some v else dict_get d k'.
Proof.
  induction d as [| [k0 v0] d IH]; simpl; [reflexivity |].
  destruct (String.eqb_spec k k0) as [-> | Hne]; simpl.
  - destruct (String.eqb k' k0); reflexivity.
  - rewrite IH. destruct (String.eqb_spec k' k0) as [-> | _];
      [destruct (String.eqb_spec k0 k); [congruence | reflexivity] | reflexivity].
Qed.

Lemma dict_set_nonempty (d : dict) k v : dict_set d k v <> [].
Proof. destruct d as [| [k0 v0] d]; simpl; [discriminate |]. destruct (String.eqb k k0); discriminate. Qed.

(** ** translate_fault *)

(** [translate_fault] never raises: whatever the fault, it returns an
    exception of the [VimException] family; and when it is given a non-empty
    message, [str()] of that exception starts with the message. *)
Theorem translate_fault_vim_exception_with_message :
  forall lmf excep_msg,
    is_vim_exception (translate_fault lmf excep_msg) = true
    /\ (forall m, excep_msg = Some m -> m <> "" ->
          exists rest, description (translate_fault lmf excep_msg) = m ++ rest).
Proof.
  intros lmf excep_msg. split.
  - unfold translate_fault.
    destruct (truthy excep_msg); destruct lmf as [[lm fn] |]; simpl;
      repeat match goal with
             | |- context [match ?x with _ => _ end] => destruct x
             end; reflexivity.
  - intros m -> Hm.
    assert (Ht : truthy (Some m) = true)
      by (simpl; destruct (String.eqb_spec m ""); [congruence | reflexivity]).
    unfold translate_fault. rewrite Ht.
    destruct (option_map fault_name lmf) as [[name |] |];
      [destruct (get_fault_class name) as [c |] |  |];
      unfold mk_fault_class, mk_VimFaultException, mk_VimException; cbn [description];
      rewrite (init_message_given _ _ Hm).
    + exists "". rewrite str_append_nil_r. reflexivity.
    + eexists. rewrite str_append_assoc. reflexivity.
    + eexists. reflexivity.
    + eexists. reflexivity.
Qed.

(** ** _trunc_id *)

(** [_trunc_id] never shows more than the last five characters of a session
    id: its result has at most five characters, is a suffix of the id, and is
    the whole id when the id is that short. *)
Theorem trunc_id_is_short_suffix :
  forall sid,
    String.length (Api._trunc_id (Some sid)) <= 5
    /\ (exists prefix, sid = prefix ++ Api._trunc_id (Some sid))
    /\ (String.length sid <= 5 -> Api._trunc_id (Some sid) = sid).
Proof.
  intros sid. unfold Api._trunc_id, last5.
  destruct (Nat.leb_spec 5 (String.length sid)) as [H5 | H5].
  - split; [apply substring_length_le |]. split.
    + exists (substring 0 (String.length sid - 5) sid).
      pose proof (substring_split sid (String.length sid - 5)) as Hs.
      replace (String.length sid - (String.length sid - 5)) with 5 in Hs by lia.
      apply Hs. lia.
    + intros Hle. assert (Hl : String.length sid = 5) by lia.
      pose proof (substring_split sid 0) as Hs.
      rewrite Hl in *. simpl Nat.sub. symmetry. rewrite Hs at 1 by lia. destruct sid; reflexivity.
  - split; [lia |]. split; [exists ""; reflexivity | reflexivity].
Qed.

(** ** Managed object references (vim_util.py) *)

Lemma has_char_app c a b : VimUtil.has_char c (a ++ b) = VimUtil.has_char c a || VimUtil.has_char c b.
Proof. induction a as [| x a IH]; simpl; [reflexivity |]. rewrite IH. apply orb_assoc. Qed.

Lemma py_split_no_sep c a : VimUtil.has_char c a = false -> VimUtil.py_split c a = [a].
Proof.
  induction a as [| x a IH]; cbn [VimUtil.has_char VimUtil.py_split]; [reflexivity |].
  intros H. apply orb_false_elim in H as [Hx Ha].
  rewrite IH by exact Ha. rewrite Ascii.eqb_sym, Hx. reflexivity.
Qed.

Lemma py_split_app_sep c a b :
  VimUtil.has_char c a = false ->
  VimUtil.py_split c (a ++ String c b) = a :: VimUtil.py_split c b.
Proof.
  induction a as [| x a IH]; cbn [VimUtil.has_char append VimUtil.py_split]; intros H.
  - rewrite Ascii.eqb_refl. reflexivity.
  - apply orb_false_elim in H as [Hx Ha].
    rewrite IH by exact Ha. rewrite Ascii.eqb_sym, Hx. reflexivity.
Qed.

(** [get_moref_value] and [get_moref_type] read back the value and type
    [get_moref] was given.  On a string, [Type:value] gives the type and the
    value, a string without a colon is its own value and has no type, and of
    a string with more colons only the field after the first colon is the
    value: the rest is dropped. *)
Theorem moref_value_and_type :
  (forall value type_,
     VimUtil.get_moref_value (VimUtil.MOObject (get_moref value type_)) = value
     /\ VimUtil.get_moref_type (VimUtil.MOObject (get_moref value type_)) = Some type_)
  /\ (forall s, VimUtil.has_char VimUtil.colon s = false ->
        VimUtil.get_moref_value (VimUtil.MOString s) = s
        /\ VimUtil.get_moref_type (VimUtil.MOString s) = None)
  /\ (forall type_ value,
        VimUtil.has_char VimUtil.colon type_ = false ->
        VimUtil.has_char VimUtil.colon value = false ->
        VimUtil.get_moref_value (VimUtil.MOString (type_ ++ ":" ++ value)) = value
        /\ VimUtil.get_moref_type (VimUtil.MOString (type_ ++ ":" ++ value)) = Some type_)
  /\ (forall type_ value rest,
        VimUtil.has_char VimUtil.colon type_ = false ->
        VimUtil.has_char VimUtil.colon value = false ->
        VimUtil.get_moref_value (VimUtil.MOString (type_ ++ ":" ++ value ++ ":" ++ rest))
        = value).
Proof.
  assert (Hcol : forall t v, t ++ ":" ++ v = t ++ String VimUtil.colon v) by reflexivity.
  assert (Hin : forall t v, VimUtil.has_char VimUtil.colon (t ++ String VimUtil.colon v) = true).
  { intros t v. rewrite has_char_app. cbn [VimUtil.has_char]. rewrite Ascii.eqb_refl. apply orb_true_r. }
  split; [intros; split; reflexivity |]. split; [| split].
  - intros s Hs. cbn [VimUtil.get_moref_value VimUtil.get_moref_type]. rewrite Hs. split; reflexivity.
  - intros t v Ht Hv. cbn [VimUtil.get_moref_value VimUtil.get_moref_type]. rewrite Hcol, Hin, py_split_app_sep, py_split_no_sep by assumption.
    split; reflexivity.
  - intros t v r Ht Hv. cbn [VimUtil.get_moref_value VimUtil.get_moref_type]. rewrite Hcol, Hin, py_split_app_sep by assumption.
    rewrite Hcol, py_split_app_sep by assumption. reflexivity.
Qed.

(** ** propset_dict (vim_util.py) *)

Lemma find_app_single {A : Type} (f : A -> bool) l x :
  find f (app l [x]) = match find f l with Some y => Some y | None => if f x then Some x else None end.
Proof. induction l as [| y l IH]; simpl; [reflexivity |]. destruct (f y); [reflexivity | exact IH]. Qed.

Lemma propset_fold_get {V : Type} (ps : list (string * V)) d k :
  dict_get (fold_left (fun d '(name, val) => pydict_set d name val) ps d) k
  = match find (fun p => String.eqb k (fst p)) (rev ps) with
    | Some p => Some (snd p)
    | None => dict_get d k
    end.
Proof.
  revert d. induction ps as [| [n v] ps IH]; intros d; simpl; [reflexivity |].
  rewrite IH, find_app_single, dict_get_pydict_set. simpl.
  destruct (find _ (rev ps)); [reflexivity |]. destruct (String.eqb k n); reflexivity.
Qed.

(** [propset_dict] maps each property name to the value of the last property
    of that name in the [propSet]; an absent [propSet] gives the empty dict. *)
Theorem propset_dict_last_value_wins :
  forall (V : Type) (ps : list (string * V)) k,
    dict_get (VimUtil.propset_dict (Some ps)) k
    = option_map snd (find (fun p => String.eqb k (fst p)) (rev ps))
    /\ VimUtil.propset_dict (@None (list (string * V))) = [].
Proof.
  intros V ps k. split; [| reflexivity].
  unfold VimUtil.propset_dict. rewrite propset_fold_get.
  destruct (find _ (rev ps)); reflexivity.
Qed.

(** ** register_fault_class (exceptions.py) *)

(** [register_fault_class(name, cls)] with a subclass of [VimException]
    makes the registry map [name] to [cls], replacing an earlier class, and
    leaves every other name as it was; with any other class it raises
    [TypeError] and returns no new registry. *)
Theorem register_fault_class_then_lookup :
  forall (C : Type) (is_vim_subclass : C -> bool) registry name cls,
    (is_vim_subclass cls = true ->
       exists registry',
         register_fault_class is_vim_subclass registry name cls = inr registry'
         /\ dict_get registry' name = Some cls
         /\ forall name', name' <> name -> dict_get registry' name' = dict_get registry name')
    /\ (is_vim_subclass cls = false ->
          exists msg, register_fault_class is_vim_subclass registry name cls
                      = inl (PyException "TypeError" msg)).
Proof.
  intros C is_sub reg name cls. unfold register_fault_class. split.
  - intros H. rewrite H. eexists. split; [reflexivity |]. split.
    + rewrite dict_get_pydict_set, String.eqb_refl. reflexivity.
    + intros n' Hn. rewrite dict_get_pydict_set.
      destruct (String.eqb_spec n' name); [congruence | reflexivity].
  - intros H. rewrite H. eexists. reflexivity.
Qed.

(** ** get_inventory_path (vim_util.py) *)

Lemma fold_right_path_app (l : list string) (a b : string) :
  fold_right (fun n acc => n ++ "/" ++ acc) a l ++ b
  = fold_right (fun n acc => n ++ "/" ++ acc) (a ++ b) l.
Proof.
  induction l as [| n l IH]; cbn [fold_right]; [reflexivity |].
  rewrite !str_append_assoc. rewrite IH. reflexivity.
Qed.

Lemma path_rev_cons (n : string) (l : list string) (b : string) :
  fold_right (fun n acc => n ++ "/" ++ acc) "" (rev (n :: l)) ++ b
  = fold_right (fun n acc => n ++ "/" ++ acc) "" (rev l) ++ (n ++ "/" ++ b).
Proof.
  change (rev (n :: l)) with (app (rev l) [n]). rewrite fold_right_app.
  rewrite !fold_right_path_app. f_equal.
Qed.

Lemma inventory_fold_parents (mids : list (string * list string)) e p path0 :
  truthy (Some e) = true ->
  exists p',
    fold_left
      (fun '(entity_name, propSet, path) (obj : option (list string)) =>
         match obj with
         | None => (entity_name, propSet, path)
         | Some ps =>
             match ps with
             | v :: _ =>
                 if negb (truthy entity_name) then (Some v, Some ps, path)
                 else (entity_name, Some ps, v ++ "/" ++ path)
             | [] => (entity_name, Some ps, path)
             end
         end)
      (map (fun '(n, r) => Some (n :: r)) mids) (Some e, p, path0)
    = (Some e, p',
       fold_right (fun n acc => n ++ "/" ++ acc) "" (rev (map fst mids)) ++ path0).
Proof.
  intros He. revert p path0.
  induction mids as [| [n r] mids IH]; intros p path0; cbn [fold_left map].
  - exists p. reflexivity.
  - rewrite He. cbn [negb]. destruct (IH (Some (n :: r)) (n ++ "/" ++ path0)) as [p' Hp'].
    exists p'. rewrite Hp'. f_equal. symmetry. apply path_rev_cons.
Qed.

(** [get_inventory_path] on the objects of the parent traversal (the entity,
    its parents from the nearest up, then the root folder), each with a
    [propSet] whose first value is its name: the result is the parents' names
    from the farthest to the nearest, each followed by a slash, after a
    leading slash, then the entity's name; the root folder's name is cut
    off. *)
Theorem inventory_path_of_parent_chain :
  forall (name : string) (rest : list string) (parents : list (string * list string))
         (root : string) (root_rest : list string),
    name <> "" ->
    VimUtil.get_inventory_path
      (Some (name :: rest) :: app (map (fun '(n, r) => Some (n :: r)) parents)
                                  [Some (root :: root_rest)])
    = "/" ++ fold_right (fun n acc => n ++ "/" ++ acc) "" (rev (map fst parents)) ++ name.
Proof.
  intros name rest parents root rr Hname.
  assert (Ht : truthy (Some name) = true).
  { simpl. destruct (String.eqb_spec name ""); [contradiction | reflexivity]. }
  unfold VimUtil.get_inventory_path. cbn [fold_left truthy negb].
  rewrite fold_left_app.
  destruct (inventory_fold_parents parents name (Some (name :: rest)) "" Ht) as [p' Hp'].
  rewrite Hp'. cbn [fold_left]. rewrite Ht. cbn [negb].
  rewrite str_append_nil_r.
  set (x := fold_right _ "" _).
  change (root ++ "/" ++ x) with (root ++ ("/" ++ x)).
  rewrite substring_app_skip. rewrite str_append_assoc. reflexivity.
Qed.

Lemma inventory_path_of_parent_chain_witness :
  "vm-1" <> ""
  /\ VimUtil.get_inventory_path
       (Some ["vm-1"] :: app (map (fun '(n, r) => Some (n :: r))
                                  [("vm"%string, @nil string); ("Datacenter-1"%string, [])])
                             [Some ["Datacenters"]])
     = "/Datacenter-1/vm/vm-1".
Proof.
  assert (H : "vm-1" <> "") by discriminate.
  split; [exact H |].
  rewrite (inventory_path_of_parent_chain "vm-1" [] [("vm"%string, []); ("Datacenter-1"%string, [])]
             "Datacenters" [] H).
  reflexivity.
Defined.

(** ** MemoryCache (service.py) *)

Lemma dict_get_filter_pydict_set_other {V : Type} (f : string * V -> bool) c k x k' :
  k' <> k -> dict_get (filter f (pydict_set c k x)) k' = dict_get (filter f c) k'.
Proof.
  intros Hne. induction c as [| [k0 x0] c IH]; simpl.
  - destruct (f (k, x)); simpl; [| reflexivity].
    destruct (String.eqb_spec k' k); [congruence | reflexivity].
  - destruct (String.eqb_spec k k0) as [-> | Hk]; simpl.
    + destruct (f (k0, x)), (f (k0, x0)); simpl;
        destruct (String.eqb_spec k' k0); congruence.
    + destruct (f (k0, x0)); simpl; [| exact IH].
      destruct (String.eqb k' k0); [reflexivity | exact IH].
Qed.

Lemma dict_get_filter_not_in {V : Type} (f : string * V -> bool) c k :
  ~ In k (map fst c) -> dict_get (filter f c) k = None.
Proof.
  intros H. apply dict_get_not_in. intros Hin. apply H.
  apply in_map_iff in Hin as [[k0 x0] [Heq Hin]]. simpl in Heq. subst k0.
  apply filter_In in Hin as [Hin _]. apply (in_map fst) in Hin. exact Hin.
Qed.

Lemma dict_get_filter_pydict_set_same {V : Type} (f : string * V -> bool) c k x :
  NoDup (map fst c) ->
  dict_get (filter f (pydict_set c k x)) k = if f (k, x) then Some x else None.
Proof.
  induction c as [| [k0 x0] c IH]; simpl; intros Hnd.
  - destruct (f (k, x)); simpl; [rewrite String.eqb_refl |]; reflexivity.
  - inversion Hnd as [| ? ? Hnotin Hnd']; subst.
    destruct (String.eqb_spec k k0) as [-> | Hk]; simpl.
    + destruct (f (k0, x)); simpl; [rewrite String.eqb_refl; reflexivity |].
      apply dict_get_filter_not_in. exact Hnotin.
    + destruct (f (k0, x0)); simpl.
      * destruct (String.eqb_spec k k0); [congruence | apply IH; exact Hnd'].
      * apply IH. exact Hnd'.
Qed.

Lemma pydict_set_keys {V : Type} (c : list (string * V)) k x :
  map fst (pydict_set c k x) = if existsb (String.eqb k) (map fst c) then map fst c
                               else app (map fst c) [k].
Proof.
  induction c as [| [k0 x0] c IH]; simpl; [reflexivity |].
  destruct (String.eqb_spec k k0) as [-> | _]; simpl; [reflexivity |].
  rewrite IH. destruct (existsb _ _); reflexivity.
Qed.

Lemma pydict_set_nodup {V : Type} (c : list (string * V)) k x :
  NoDup (map fst c) -> NoDup (map fst (pydict_set c k x)).
Proof.
  intros Hnd. rewrite pydict_set_keys.
  destruct (existsb (String.eqb k) (map fst c)) eqn:He; [exact Hnd |].
  apply NoDup_app; [exact Hnd | constructor; [intros [] | constructor] |].
  intros y Hy [Hk | []]. subst y.
  assert (existsb (String.eqb k) (map fst c) = true) as Ht.
  { apply existsb_exists. exists k. split; [exact Hy | apply String.eqb_refl]. }
  congruence.
Qed.

(** A value [put] into a cache whose keys are distinct is what [get] of its
    key returns at any later time [now'] while it has not expired: always
    when it was put with [time = 0], otherwise while [now' < now + time];
    after that [get] returns [None].  [get] of any other key is what it was
    before the [put], the keys stay distinct, and [get] leaves no expired
    entry in the cache. *)
Theorem memory_cache_put_then_get :
  forall (V : Type) (c : Cache.cache V) now key value time now',
    NoDup (map fst c) ->
    fst (Cache.get now' key (Cache.put now key value time c))
      = (if Nat.eqb time 0 || Nat.ltb now' (now + time) then Some value else None)
    /\ (forall key', key' <> key ->
          fst (Cache.get now' key' (Cache.put now key value time c))
          = fst (Cache.get now' key' c))
    /\ NoDup (map fst (Cache.put now key value time c))
    /\ forallb (fun e => negb (Cache.expired now' e))
               (snd (Cache.get now' key (Cache.put now key value time c))) = true.
Proof.
  intros V c now key value time now' Hnd. unfold Cache.get, Cache.put. cbn [fst snd].
  split; [| split; [| split]].
  - rewrite dict_get_filter_pydict_set_same by exact Hnd. unfold Cache.expired.
    destruct (Nat.eqb_spec time 0) as [-> | Ht]; simpl; [reflexivity |].
    destruct (Nat.eqb_spec (now + time) 0); [lia |]. simpl.
    destruct (Nat.ltb_spec now' (now + time)), (Nat.leb_spec (now + time) now');
      simpl; try reflexivity; lia.
  - intros key' Hk. rewrite dict_get_filter_pydict_set_other by exact Hk. reflexivity.
  - apply pydict_set_nodup. exact Hnd.
  - apply forallb_forall. intros e He. apply filter_In in He. apply He.
Qed.

Lemma memory_cache_put_then_get_witness :
  NoDup (map fst (@nil (string * (nat * nat))))
  /\ fst (Cache.get 20 "k" (Cache.put 10 "k" 7 5 [])) = None.
Proof.
  split; [constructor |].
  destruct (memory_cache_put_then_get nat [] 10 "k" 7 5 20 (NoDup_nil _)) as [H _].
  rewrite H. reflexivity.
Defined.

(** ** ServiceMessagePlugin (service.py) *)

Section ElementInd.
Variable P : Plugin.element -> Prop.
Hypothesis HP : forall n t a ch, Forall P ch -> P (Plugin.Element n t a ch).

Fixpoint element_ind_nested (e : Plugin.element) : P e :=
  match e with
  | Plugin.Element n t a ch =>
      HP n t a ch
        ((fix go (l : list Plugin.element) : Forall P l :=
            match l with
            | [] => Forall_nil P
            | c :: l' => Forall_cons c (element_ind_nested c) (go l')
            end) ch)
  end.
End ElementInd.

Lemma prune_well_pruned e : Plugin.well_pruned (Plugin.prune e) = true.
Proof.
  induction e as [n t a ch IH] using element_ind_nested. cbn [Plugin.prune Plugin.well_pruned].
  apply forallb_forall. intros c Hc. apply filter_In in Hc as [Hc Hkeep].
  apply in_map_iff in Hc as [c0 [<- Hc0]].
  rewrite Forall_forall in IH. rewrite (IH c0 Hc0), andb_true_r.
  destruct (Plugin.isempty (Plugin.prune c0)), (Plugin.allowed_empty (Plugin.prune c0));
    simpl in *; congruence.
Qed.

Lemma filter_all {A : Type} (f : A -> bool) l : forallb f l = true -> filter f l = l.
Proof.
  induction l as [| x l IH]; simpl; [reflexivity |].
  intros H. apply andb_true_iff in H as [Hx Hl]. rewrite Hx, IH by exact Hl. reflexivity.
Qed.

Lemma prune_well_pruned_id e : Plugin.well_pruned e = true -> Plugin.prune e = e.
Proof.
  induction e as [n t a ch IH] using element_ind_nested. cbn [Plugin.prune Plugin.well_pruned].
  intros Hw. rewrite forallb_forall in Hw. rewrite Forall_forall in IH.
  assert (Hmap : map Plugin.prune ch = ch).
  { rewrite <- map_id. apply map_ext_in. intros c Hc.
    apply IH; [exact Hc |]. apply Hw in Hc. apply andb_true_iff in Hc. apply Hc. }
  rewrite Hmap, filter_all; [reflexivity |].
  apply forallb_forall. intros c Hc. apply Hw in Hc.
  apply andb_true_iff in Hc as [Hc _].
  destruct (Plugin.isempty c), (Plugin.allowed_empty c); simpl in *; congruence.
Qed.


Lemma add_attribute_keeps_attributes py_int e :
  Plugin.el_attributes e <> [] -> Plugin.add_attribute_for_value py_int e <> [].
Proof.
  destruct e as [n t a ch]. cbn [Plugin.el_attributes Plugin.add_attribute_for_value].
  unfold Plugin.set_attr. intros Ha.
  destruct (String.eqb n "removeKey").
  - destruct t as [s |]; [destruct (py_int s) |]; apply dict_set_nonempty.
  - destruct (String.eqb n "value" || String.eqb n "val"); [apply dict_set_nonempty | exact Ha].
Qed.

Lemma walk_keeps_non_empty py_int c :
  Plugin.isempty c = false ->
  Plugin.isempty (Plugin.walk (Plugin.add_attribute_for_value py_int) c) = false.
Proof.
  destruct c as [n t a ch]. intros H. cbn [Plugin.walk].
  pose proof (add_attribute_keeps_attributes py_int (Plugin.Element n t a ch)) as Ha.
  cbn [Plugin.el_attributes] in Ha.
  generalize dependent (Plugin.add_attribute_for_value py_int (Plugin.Element n t a ch)).
  intros a' Ha. cbn [Plugin.isempty] in H |- *.
  destruct ch; [| reflexivity]. destruct t; [reflexivity |].
  destruct a as [| p a]; [discriminate |].
  destruct a' as [| p' a']; [exfalso; apply Ha; [discriminate | reflexivity] | reflexivity].
Qed.

Lemma walk_well_pruned py_int e :
  Plugin.well_pruned e = true ->
  Plugin.well_pruned (Plugin.walk (Plugin.add_attribute_for_value py_int) e) = true.
Proof.
  induction e as [n t a ch IH] using element_ind_nested. cbn [Plugin.walk Plugin.well_pruned].
  intros Hw. rewrite forallb_forall in Hw |- *. rewrite Forall_forall in IH.
  intros c' Hc'. apply in_map_iff in Hc' as [c [<- Hc]].
  specialize (Hw c Hc) as Hwc. apply andb_true_iff in Hwc as [He Hwp].
  rewrite (IH c Hc Hwp), andb_true_r.
  assert (Hname : Plugin.allowed_empty (Plugin.walk (Plugin.add_attribute_for_value py_int) c)
                  = Plugin.allowed_empty c) by (destruct c; reflexivity).
  rewrite Hname.
  destruct (Plugin.isempty c) eqn:Hempty; simpl in He.
  - rewrite He. apply orb_true_r.
  - rewrite walk_keeps_non_empty by exact Hempty. reflexivity.
Qed.

Lemma nodes_walk visit e x :
  In x (Plugin.nodes (Plugin.walk visit e)) -> exists y, x = Plugin.walk visit y.
Proof.
  induction e as [n t a ch IH] using element_ind_nested. cbn [Plugin.walk Plugin.nodes].
  intros [Hx | Hx]; [exists (Plugin.Element n t a ch); symmetry; exact Hx |].
  apply in_flat_map in Hx as [c' [Hc' Hx]]. apply in_map_iff in Hc' as [c [<- Hc]].
  rewrite Forall_forall in IH. exact (IH c Hc Hx).
Qed.


(** ** logout (api.py) *)

(** [logout] never raises.  Without a session id it sends nothing and changes
    nothing; otherwise it sends [Logout] on the session manager, and clears
    the session id (keeping the rest of the session) only when the request
    succeeds: a failed request is swallowed and leaves the session as it
    was. *)
Theorem logout_clears_session_only_on_success :
  forall soap_server session_manager w,
    Api2.logout soap_server session_manager w
    = if truthy (session_id (w_session w)) then
        match soap_server w "Logout" session_manager with
        | Service.SoapResponse _ =>
            (Ok tt,
             {| w_session := {| session_id := None;
                                session_username := session_username (w_session w);
                                pbm_client := pbm_client (w_session w) |};
                w_create_session_retry := w_create_session_retry w;
                w_trace := app (w_trace w) [EvSoapRequest "Logout" session_manager] |})
        | Service.SoapRaises _ =>
            (Ok tt, log_event (EvSoapRequest "Logout" session_manager) w)
        end
      else (Ok tt, w).
Proof.
  intros srv sm w. unfold Api2.logout, bind at 1, get_session at 1.
  destruct (truthy (session_id (w_session w))); [| reflexivity].
  unfold try_except, Service.request_handler, bind.
  destruct (srv w "Logout" sm); reflexivity.
Qed.

(** ** wait_for_lease_ready (api.py) *)

Lemma lease_loop read_prop lease_str prop_repr interval w n w_p fuel :
  initializing_polls (read_prop "state") interval w n w_p ->
  n < fuel ->
  Api2.wait_for_lease_ready read_prop lease_str prop_repr interval fuel w
  = Api2.wait_for_lease_ready read_prop lease_str prop_repr interval (fuel - n) w_p.
Proof.
  intros Hp. revert fuel.
  induction Hp as [w | w w1 n w2 Hread Hrest IH]; intros fuel Hfuel.
  - rewrite Nat.sub_0_r. reflexivity.
  - destruct fuel as [| fuel]; [lia |].
    unfold Api2.wait_for_lease_ready. cbn [LoopingCall.fixed_interval_looping_call].
    unfold Api2._poll_lease at 1, bind at 1. rewrite Hread. cbn [Api2.state_is String.eqb].
    simpl. apply IH. lia.
Qed.

(** [wait_for_lease_ready] polls the lease's [state] once per poll interval
    while it reads [initializing], and stops at the first poll that reads
    anything else: [ready] returns; [error] reads the lease's [error] and
    raises [translate_fault] of it with the message
    [Lease: <lease> is in error state. Details: <error>.], where an error
    that cannot be read because of a [VimException] counts as [Unknown] and
    any other exception from that read propagates; any other state raises a
    [VimException] [Unknown state: <state> for lease: <lease>.]. *)
Theorem wait_for_lease_ready_outcome :
  forall read_prop lease_str prop_repr interval fuel w n w_p last w_last,
    initializing_polls (read_prop "state") interval w n w_p ->
    read_prop "state" w_p = (Ok last, w_last) ->
    Api2.state_is last "initializing" = false ->
    n < fuel ->
    let result := Api2.wait_for_lease_ready read_prop lease_str prop_repr interval fuel w in
    let details v := "Lease: " ++ lease_str ++ " is in error state. Details: "
                     ++ Api2.py_str prop_repr v ++ "." in
    (Api2.state_is last "ready" = true -> result = (Ok tt, w_last))
    /\ (Api2.state_is last "error" = true ->
          forall r w_e, read_prop "error" w_last = (r, w_e) ->
          result = (match r with
                    | Ok v => Raise (translate_fault (Api2.lmf_of v) (Some (details v)))
                    | Raise e =>
                        if is_vim_exception e
                        then Raise (translate_fault None (Some (details (Api2.PStr "Unknown"))))
                        else Raise e
                    | Diverge => Diverge
                    end, w_e))
    /\ (Api2.state_is last "ready" = false -> Api2.state_is last "error" = false ->
          result = (Raise (mk_VimException
                             (Some ("Unknown state: " ++ Api2.py_str prop_repr last
                                    ++ " for lease: " ++ lease_str ++ ".")) None),
                    w_last)).
Proof.
  intros read_prop lease_str prop_repr interval fuel w n w_p last w_last Hp Hlast Hinit Hfuel.
  cbv zeta. rewrite (lease_loop _ _ _ _ _ _ _ _ Hp Hfuel).
  destruct (fuel - n) as [| k] eqn:Hk; [lia |].
  unfold Api2.wait_for_lease_ready. cbn [LoopingCall.fixed_interval_looping_call].
  split; [| split]; unfold Api2._poll_lease at 1, bind at 1; rewrite Hlast, Hinit.
  - intros Hr. rewrite Hr. reflexivity.
  - intros He r w_e Hr.
    destruct (Api2.state_is last "ready") eqn:Hready.
    + destruct last as [s | | |]; try discriminate. cbn [Api2.state_is] in *.
      apply String.eqb_eq in Hready, He. congruence.
    + rewrite He. unfold Api2._get_error_message, try_except, bind, raise, ret.
      rewrite Hr. destruct r as [v | e |]; [reflexivity | | reflexivity].
      destruct (is_vim_exception e); reflexivity.
  - intros Hr He. rewrite Hr, He. reflexivity.
Qed.

Lemma wait_for_lease_ready_outcome_witness :
  initializing_polls (Example.lease_reader 2 "state") 1 Example.world0 2
    (sleep_w 1 (sleep_w 1 Example.world0))
  /\ Api2.wait_for_lease_ready (Example.lease_reader 2) "vm-lease" (fun _ => "obj") 1 3
       Example.world0
     = (Ok tt, sleep_w 1 (sleep_w 1 Example.world0)).
Proof.
  assert (Hp : initializing_polls (Example.lease_reader 2 "state") 1 Example.world0 2
                 (sleep_w 1 (sleep_w 1 Example.world0))).
  { apply (initializing_polls_cons _ _ _ Example.world0); [reflexivity |].
    apply (initializing_polls_cons _ _ _ (sleep_w 1 Example.world0)); [reflexivity |].
    apply initializing_polls_nil. }
  split; [exact Hp |].
  destruct (wait_for_lease_ready_outcome (Example.lease_reader 2) "vm-lease" (fun _ => "obj")
              1 3 Example.world0 2 _ (Api2.PStr "ready") _ Hp eq_refl eq_refl
              ltac:(lia)) as [H _].
  apply H. reflexivity.
Defined.

(** ** The errors of the request handler (service.py) *)

(** Of the errors of a SOAP request, the ones [invoke_api]'s decorator
    retries (a [VimSessionOverLoadException] or [VimConnectionException])
    are the httplib errors, the [requests] errors, and the other errors whose
    text contains [Address already in use], [Software caused connection
    abort] or the not-XML response message.  The ones [isinstance(e,
    VimException)] holds of are the SOAP faults and the remaining other
    errors; a missing SOAP method is neither. *)
Theorem soap_errors_retryable_or_vim :
  forall attr_name err,
    let retryable_text t := Service.contains Service.ADDRESS_IN_USE_ERROR t
                            || Service.contains Service.CONN_ABORT_ERROR t
                            || Service.contains Service.RESP_NOT_XML_ERROR t in
    Api.is_overload_or_connection_exception (Service.handle_soap_error attr_name err)
    = match err with
      | Service.HttplibError | Service.RequestException _ => true
      | Service.OtherError t => retryable_text t
      | _ => false
      end
    /\ is_vim_exception (Service.handle_soap_error attr_name err)
       = match err with
         | Service.WebFault _ _ => true
         | Service.OtherError t => negb (retryable_text t)
         | _ => false
         end.
Proof.
  intros attr err rt. unfold rt.
  destruct err as [fs detail | | | t | t]; cbn [Service.handle_soap_error];
    try (split; reflexivity).
  - destruct (Service.collect_faults detail). split; reflexivity.
  - destruct (Service.contains Service.ADDRESS_IN_USE_ERROR t
              || Service.contains Service.CONN_ABORT_ERROR t); [split; reflexivity |].
    destruct (Service.contains Service.RESP_NOT_XML_ERROR t); split; reflexivity.
Qed.

(** ** _retrieve_properties_ex_fault_checker (service.py) *)

Lemma fold_left_concat {X Y B : Type} (g : X * Y -> B -> X * Y) (l : list (list B))
    (acc : X * Y) :
  fold_left (fun '(x, y) l' => fold_left g l' (x, y)) l acc = fold_left g (concat l) acc.
Proof.
  revert acc. induction l as [| b l IH]; intros [x y]; simpl; [reflexivity |].
  rewrite fold_left_app. apply IH.
Qed.

Lemma missing_fold (l : list missing_elem) fl d fl_r d_r :
  fold_left
    (fun '(fl', d') me =>
       (app fl' [me_fault_name me],
        if String.eqb (me_fault_name me) NO_PERMISSION
        then dict_set (dict_set d' "object" (me_object me))
               "privilegeId" (me_privilegeId me)
        else d'))
    l (fl, d) = (fl_r, d_r) ->
  let last_np := find (fun me => String.eqb (me_fault_name me) NO_PERMISSION) (rev l) in
  fl_r = app fl (map me_fault_name l)
  /\ dict_get d_r "object"
     = match last_np with Some me => Some (me_object me) | None => dict_get d "object" end
  /\ dict_get d_r "privilegeId"
     = match last_np with Some me => Some (me_privilegeId me) | None => dict_get d "privilegeId" end.
Proof.
  revert fl d. induction l as [| me l IH]; intros fl d Hf; cbn [fold_left rev map] in *.
  - injection Hf as <- <-. rewrite app_nil_r. split; [| split]; reflexivity.
  - apply IH in Hf as [H1 [H2 H3]].
    rewrite H1, <- app_assoc. split; [reflexivity |].
    rewrite find_app_single, H2, H3. cbn [find].
    destruct (find _ (rev l)); [split; reflexivity |].
    destruct (String.eqb (me_fault_name me) NO_PERMISSION); [| split; reflexivity].
    rewrite !dict_get_dict_set. split; reflexivity.
Qed.

(** [_retrieve_properties_ex_fault_checker] raises nothing for a result
    without missing properties.  Otherwise it raises a [VimFaultException]
    whose fault list names the fault of every missing property, in order, and
    whose details hold the [object] and [privilegeId] of the last
    [NoPermission] fault.  An empty response raises the [NotAuthenticated]
    fault with empty details. *)
Theorem retrieve_properties_ex_fault_checker_faults :
  forall objects,
    let missing := concat objects in
    let fault_string := "Error occurred while calling RetrievePropertiesEx." in
    let last_np := find (fun me => String.eqb (me_fault_name me) NO_PERMISSION) (rev missing) in
    (missing = [] -> Service._retrieve_properties_ex_fault_checker (VRetrieveResult objects) = None)
    /\ (missing <> [] ->
          exists details,
            Service._retrieve_properties_ex_fault_checker (VRetrieveResult objects)
            = Some (inl (VimFaultException (map me_fault_name missing) fault_string None
                                           (Some details)))
            /\ dict_get details "object" = option_map me_object last_np
            /\ dict_get details "privilegeId" = option_map me_privilegeId last_np)
    /\ (forall response, value_truthy response = false ->
          Service._retrieve_properties_ex_fault_checker response
          = Some (inl (VimFaultException [NOT_AUTHENTICATED] fault_string None (Some [])))).
Proof.
  intros objects missing fs last_np.
  assert (Hrun : exists details,
             Service._retrieve_properties_ex_fault_checker (VRetrieveResult objects)
             = match map me_fault_name missing with
               | [] => None
               | fl => Some (inl (VimFaultException fl fs None (Some details)))
               end
             /\ dict_get details "object" = option_map me_object last_np
             /\ dict_get details "privilegeId" = option_map me_privilegeId last_np).
  { unfold Service._retrieve_properties_ex_fault_checker. cbn [value_truthy negb].
    rewrite fold_left_concat. fold missing.
    match goal with
    | |- context [fold_left ?F missing ([], [])] =>
        destruct (fold_left F missing ([], [])) as [fl d] eqn:Hf
    end.
    apply missing_fold in Hf as [H1 [H2 H3]].
    exists d. fold last_np in H2, H3. rewrite H2, H3.
    split; [| destruct last_np; split; reflexivity].
    rewrite H1. destruct (map me_fault_name missing); reflexivity. }
  destruct Hrun as [details [Hrun [Ho Hp]]].
  split; [| split].
  - intros Hm. rewrite Hrun, Hm. reflexivity.
  - intros Hm. exists details. split; [| split; assumption].
    rewrite Hrun. destruct missing; [contradiction | reflexivity].
  - intros r Hr. unfold Service._retrieve_properties_ex_fault_checker. rewrite Hr.
    reflexivity.
Qed.

(** ** _invoke_api on errors that are not faults (api.py) *)

(** An exception of the call that is neither a [VimFaultException] nor a
    [VimConnectionException] leaves [_invoke_api] as it came, after the one
    call and with no other interaction; unless it is a
    [VimSessionOverLoadException], [invoke_api] does not retry it either. *)
Theorem invoke_api_reraises_other_errors :
  forall server_username api_retry_count sia login srv_api fuel module method e w,
    srv_api module method w = inl e ->
    (forall fl m c d, e <> VimFaultException fl m c d) ->
    (forall m c, e <> VimConnectionException m c) ->
    Api._invoke_api server_username sia login srv_api fuel module method w
    = (Raise e, log_event (EvApiCall module method) w)
    /\ (Api.is_overload_or_connection_exception e = false ->
          Api.invoke_api server_username api_retry_count sia login srv_api (S fuel)
            module method w
          = (Raise e, log_event (EvApiCall module method) w)).
Proof.
  intros su arc sia login srv fuel module method e w Hsrv Hnf Hnc.
  assert (H : forall fuel', Api._invoke_api su sia login srv fuel' module method w
                           = (Raise e, log_event (EvApiCall module method) w)).
  { intros fuel'. unfold Api._invoke_api, try_except, rpc. rewrite Hsrv. cbn beta iota.
    destruct e as [fl m c d | m c | cls m d | m c | m c | m c | ty t];
      try reflexivity; [exfalso; eapply Hnf; reflexivity | exfalso; eapply Hnc; reflexivity]. }
  split; [apply H |].
  intros Ho. rewrite invoke_api_first_call, H, Ho. reflexivity.
Qed.

Lemma invoke_api_reraises_other_errors_witness :
  let e := VimAttributeException "No such SOAP method Foo." None in
  Example.fails_first e "vim" "Foo" Example.world0 = inl e
  /\ (forall fl m c d, e <> VimFaultException fl m c d)
  /\ (forall m c, e <> VimConnectionException m c)
  /\ Api.invoke_api "admin" 10 (Example.session_active true) Example.login_ok
       (Example.fails_first e) 3 "vim" "Foo" Example.world0
     = (Raise e, log_event (EvApiCall "vim" "Foo") Example.world0).
Proof.
  intros e.
  assert (Hs : Example.fails_first e "vim" "Foo" Example.world0 = inl e) by reflexivity.
  assert (Hf : forall fl m c d, e <> VimFaultException fl m c d) by discriminate.
  assert (Hc : forall m c, e <> VimConnectionException m c) by discriminate.
  split; [exact Hs |]. split; [exact Hf |]. split; [exact Hc |].
  destruct (invoke_api_reraises_other_errors "admin" 10 (Example.session_active true)
              Example.login_ok (Example.fails_first e) 2 "vim" "Foo" e Example.world0
              Hs Hf Hc) as [_ H].
  apply H. reflexivity.
Defined.

(** On a [VimConnectionException] of the call, [_invoke_api] asks whether the
    session is active.  If it is, it re-raises the connection error without
    logging in again.  If the liveness check itself raises an exception that
    is not a [VimException], that exception propagates in place of the
    connection error, again without a login. *)
Theorem invoke_api_connection_error_checks_session :
  forall server_username sia login srv_api fuel module method m c w,
    srv_api module method w = inl (VimConnectionException m c) ->
    let w1 := log_event (EvApiCall module method) w in
    let w2 := log_event (EvSessionIsActive (session_id (w_session w))
                                           (session_username (w_session w))) w1 in
    (sia w1 = inr true ->
       Api._invoke_api server_username sia login srv_api fuel module method w
       = (Raise (VimConnectionException m c), w2))
    /\ (forall ex, sia w1 = inl ex -> is_vim_exception ex = false ->
          Api._invoke_api server_username sia login srv_api fuel module method w
          = (Raise ex, w2)).
Proof.
  intros su sia login srv fuel module method m c w Hsrv w1 w2.
  unfold Api._invoke_api, try_except, rpc. rewrite Hsrv. cbn beta iota.
  subst w1 w2.
  split; unfold bind at 1; rewrite is_current_session_active_unfold.
  - intros Ha. rewrite Ha. reflexivity.
  - intros ex Ha Hv. rewrite Ha, Hv. reflexivity.
Qed.

Lemma invoke_api_connection_error_checks_session_witness :
  let e := VimConnectionException "requests error in Foo." None in
  Example.fails_first e "vim" "Foo" Example.world0 = inl e
  /\ Api._invoke_api "admin" (Example.session_active true) Example.login_ok
       (Example.fails_first e) 2 "vim" "Foo" Example.world0
     = (Raise e,
        log_event (EvSessionIsActive (session_id Example.session0)
                                     (session_username Example.session0))
          (log_event (EvApiCall "vim" "Foo") Example.world0)).
Proof.
  intros e.
  assert (Hs : Example.fails_first e "vim" "Foo" Example.world0 = inl e) by reflexivity.
  split; [exact Hs |].
  destruct (invoke_api_connection_error_checks_session "admin" (Example.session_active true)
              Example.login_ok (Example.fails_first e) 2 "vim" "Foo"
              "requests error in Foo." None Example.world0 Hs) as [H _].
  apply H. reflexivity.
Defined.

(** ** RetryDecorator (api.py): a call that succeeds after failures *)

Section RetrySuccess.
Context {A : Type}.
Variable c : Retry.retry_config.
(** What the [i]-th call of the decorated function gives. *)
Variable g : nat -> outcome A.
Variable k : nat.
Variable v : A.
Hypothesis Hfail : forall i, i < k -> exists e, g i = Raise e /\ Retry.exceptions c e = true.
Hypothesis Hok : g k = Ok v.
Hypothesis Hbound : (Retry.max_retry_count c = -1 \/ Z.of_nat k <= Retry.max_retry_count c)%Z.

Let sleeps (j : nat) : list nat :=
  map (fun i => Nat.min (i * Retry.inc_sleep_time c) (Retry.max_sleep_time c)) (seq 1 j).

Lemma retry_success_from m : forall j fuel,
  m + j = k -> m < fuel ->
  Retry.func (fun t '(n, sl) => (n, app sl [t])) c fuel (fun '(n, sl) => (g n, (S n, sl)))
    {| Retry.retry_count := j; Retry.sleep_time := j * Retry.inc_sleep_time c |}
    (j, sleeps j)
  = (Ok v, ({| Retry.retry_count := k; Retry.sleep_time := k * Retry.inc_sleep_time c |},
            (S k, sleeps k))).
Proof.
  induction m as [| m IH]; intros j fuel Hj Hfuel;
    (destruct fuel as [| fuel]; [lia |]); rewrite retry_func_step; unfold Retry._func.
  - simpl in Hj. subst j. rewrite Hok. reflexivity.
  - destruct (Hfail j ltac:(lia)) as [e [He Hexc]]. rewrite He, Hexc.
    assert (Hc : (negb (Retry.max_retry_count c =? -1)
                  && (Z.of_nat j >=? Retry.max_retry_count c))%Z = false).
    { destruct Hbound as [Hm | Hm].
      - rewrite Hm. reflexivity.
      - apply andb_false_intro2. rewrite Z.geb_leb. apply Z.leb_gt. lia. }
    cbn [Retry.retry_count]. rewrite Hc. cbn [Retry.sleep_time].
    rewrite <- (IH (S j) fuel) by lia. f_equal.
    + cbn. f_equal. lia.
    + unfold sleeps. rewrite seq_S, map_app. cbn. f_equal. f_equal. f_equal. lia.
Qed.

End RetrySuccess.

(** A [RetryDecorator] whose function raises exceptions of its list on its
    first [k] calls and returns [v] on the next one, with [k] within
    [max_retry_count] (or [max_retry_count = -1]), returns [v] after exactly
    [k + 1] calls.  Before the [i]-th retry it sleeps [i * inc_sleep_time]
    seconds, capped at [max_sleep_time]; afterwards its counter is [k] and
    its sleep time [k * inc_sleep_time]. *)
Theorem retry_decorator_returns_after_failures :
  forall (A : Type) (c : Retry.retry_config) (g : nat -> outcome A) (k : nat) (v : A) fuel,
    (forall i, i < k -> exists e, g i = Raise e /\ Retry.exceptions c e = true) ->
    g k = Ok v ->
    (Retry.max_retry_count c = -1 \/ Z.of_nat k <= Retry.max_retry_count c)%Z ->
    k < fuel ->
    Retry.func (fun t '(n, sl) => (n, app sl [t])) c fuel (fun '(n, sl) => (g n, (S n, sl)))
      Retry.init_state (0, [])
    = (Ok v, ({| Retry.retry_count := k; Retry.sleep_time := k * Retry.inc_sleep_time c |},
              (S k, map (fun i => Nat.min (i * Retry.inc_sleep_time c) (Retry.max_sleep_time c))
                        (seq 1 k)))).
Proof.
  intros A c g k v fuel Hfail Hok Hbound Hfuel.
  exact (retry_success_from c g k v Hfail Hok Hbound k 0 fuel ltac:(lia) Hfuel).
Qed.

Lemma retry_decorator_returns_after_failures_witness :
  let cfg := {| Retry.max_retry_count := 3; Retry.inc_sleep_time := 10;
                Retry.max_sleep_time := 15; Retry.exceptions := Api.is_connection_exception |} in
  let g (i : nat) : outcome nat :=
    if Nat.ltb i 2 then Raise (VimConnectionException "requests error in Login." None)
    else Ok 7 in
  (forall i, i < 2 -> exists e, g i = Raise e /\ Retry.exceptions cfg e = true)
  /\ Retry.func (fun t '(n, sl) => (n, app sl [t])) cfg 3 (fun '(n, sl) => (g n, (S n, sl)))
       Retry.init_state (0, [])
     = (Ok 7, ({| Retry.retry_count := 2; Retry.sleep_time := 20 |}, (3, [10; 15]))).
Proof.
  intros cfg g.
  assert (Hf : forall i, i < 2 -> exists e, g i = Raise e /\ Retry.exceptions cfg e = true).
  { intros i Hi. exists (VimConnectionException "requests error in Login." None).
    unfold g. destruct (Nat.ltb_spec i 2); [split; reflexivity | lia]. }
  split; [exact Hf |].
  apply (retry_decorator_returns_after_failures nat cfg g 2 7 3 Hf eq_refl);
    [right; unfold cfg; simpl; lia | lia].
Defined.

(** ** WithRetrieval (vim_util.py) *)

Lemma firstn_app_le {A : Type} n (l1 l2 : list A) :
  n <= length l1 -> firstn n (app l1 l2) = firstn n l1.
Proof.
  intros H. rewrite firstn_app. replace (n - length l1) with 0 by lia.
  rewrite app_nil_r. reflexivity.
Qed.

Lemma firstn_app_gt {A : Type} n (l1 l2 : list A) :
  length l1 < n -> firstn n (app l1 l2) = app l1 (firstn (n - length l1) l2).
Proof.
  intros H. rewrite firstn_app, firstn_all2 by lia. reflexivity.
Qed.

Lemma with_retrieval_chain {Obj : Type} (srv : string -> option (Retrieval.retrieve_result Obj))
    rr pages tokens :
  retrieval_chain srv rr pages tokens ->
  forall fuel n calls,
    length pages < fuel ->
    let all := concat (map Retrieval.objects pages) in
    (exists j,
        Retrieval.with_retrieval srv fuel n rr calls
        = Some (firstn n all,
                app calls (app (map Retrieval.ContinueRetrievePropertiesEx (firstn j tokens))
                             (match nth_error tokens j with
                              | Some t => [Retrieval.CancelRetrievePropertiesEx t]
                              | None => []
                              end))))
    /\ (length all < n ->
          Retrieval.with_retrieval srv fuel n rr calls
          = Some (all, app calls (map Retrieval.ContinueRetrievePropertiesEx tokens))).
Proof.
  unfold Retrieval.with_retrieval.
  induction 1 as [| r Ht | r t pages tokens Htok Ht Hrest IH];
    intros fuel n calls Hfuel; (destruct fuel as [| fuel]; [simpl in Hfuel; lia |]);
    cbn [Retrieval.iterate].
  - split; [exists 0 | intros _]; rewrite app_nil_r; [destruct n |]; reflexivity.
  - cbn [map concat]. rewrite app_nil_r.
    unfold Retrieval.continue_retrieval, Retrieval._get_token. rewrite Ht.
    destruct fuel as [| fuel]; [simpl in Hfuel; lia |].
    destruct (Nat.leb_spec n (length (Retrieval.objects r))) as [Hn | Hn].
    + split; [| intros; lia].
      exists 0. unfold Retrieval.cancel_retrieval, Retrieval._get_token. rewrite Ht.
      rewrite !app_nil_r. reflexivity.
    + cbn [Retrieval.iterate]. rewrite !app_nil_r, firstn_all2 by lia.
      split; [exists 0 |]; cbn; rewrite ?app_nil_r; reflexivity.
  - cbn [map concat].
    destruct (Nat.leb_spec n (length (Retrieval.objects r))) as [Hn | Hn].
    + split; [| rewrite length_app; intros; lia].
      exists 0. unfold Retrieval.cancel_retrieval, Retrieval._get_token.
      rewrite Htok, Ht, firstn_app_le by exact Hn. reflexivity.
    + unfold Retrieval.continue_retrieval, Retrieval._get_token. rewrite Htok, Ht.
      cbn [length] in Hfuel.
      destruct (IH fuel (n - length (Retrieval.objects r))
                  (app calls [Retrieval.ContinueRetrievePropertiesEx t]) ltac:(lia))
        as [[j Hj] Hall].
      destruct (Retrieval.iterate srv fuel (n - length (Retrieval.objects r)) (srv t)
                  (app calls [Retrieval.ContinueRetrievePropertiesEx t]))
        as [[[objs last] calls2] |]; [| discriminate].
      rewrite firstn_app_gt by exact Hn. split.
      * exists (S j). destruct last as [lr |]; injection Hj as -> ->;
          cbn [firstn map nth_error]; rewrite <- !app_assoc; reflexivity.
      * intros Hlen. rewrite length_app in Hlen.
        specialize (Hall ltac:(lia)).
        destruct last as [lr |]; injection Hall as -> ->; cbn [map];
          rewrite <- app_assoc; reflexivity.
Qed.



(** ** The request handler on RetrievePropertiesEx (service.py) *)

(** An empty reply to [RetrievePropertiesEx] (what a timed-out session
    gets) makes the request handler raise the [NotAuthenticated] fault that
    [invoke_api] takes for an inactive session; the same empty reply to any
    other method is returned as it is. *)
Theorem request_handler_empty_retrieve_not_authenticated :
  forall soap_server mo w response,
    value_truthy response = false ->
    soap_server w "RetrievePropertiesEx" mo = Service.SoapResponse response ->
    Service.request_handler soap_server "RetrievePropertiesEx" "retrievepropertiesex"
      (Service.MORef mo) w
    = (Raise (VimFaultException [NOT_AUTHENTICATED]
                "Error occurred while calling RetrievePropertiesEx." None (Some [])),
       log_event (EvSoapRequest "RetrievePropertiesEx" mo) w)
    /\ (forall attr_name lower_attr_name,
          lower_attr_name <> "retrievepropertiesex" ->
          soap_server w attr_name mo = Service.SoapResponse response ->
          Service.request_handler soap_server attr_name lower_attr_name (Service.MORef mo) w
          = (Ok response, log_event (EvSoapRequest attr_name mo) w)).
Proof.
  intros srv mo w resp Hr Hs. split.
  - unfold Service.request_handler. rewrite Hs, String.eqb_refl.
    unfold Service._retrieve_properties_ex_fault_checker. rewrite Hr. reflexivity.
  - intros attr lower Hl Hs'. unfold Service.request_handler. rewrite Hs'.
    destruct (String.eqb_spec lower "retrievepropertiesex"); [contradiction | reflexivity].
Qed.

Lemma request_handler_empty_retrieve_not_authenticated_witness :
  let mo := get_moref "propertyCollector" "PropertyCollector" in
  let srv (w : world) (attr : string) (m : moref) := Service.SoapResponse VNone in
  value_truthy VNone = false
  /\ srv Example.world0 "RetrievePropertiesEx" mo = Service.SoapResponse VNone
  /\ fst (Service.request_handler srv "RetrievePropertiesEx" "retrievepropertiesex"
            (Service.MORef mo) Example.world0)
     = Raise (VimFaultException [NOT_AUTHENTICATED]
                "Error occurred while calling RetrievePropertiesEx." None (Some [])).
Proof.
  intros mo srv.
  split; [reflexivity |]. split; [reflexivity |].
  destruct (request_handler_empty_retrieve_not_authenticated srv mo Example.world0 VNone
              eq_refl eq_refl) as [H _].
  rewrite H. reflexivity.
Defined.
